(** * Ray workflow API ([python/ray/workflow/api.py]): a shallow embedding

    The module [api.py] is the public surface of the workflow engine.  Every
    function in it is a thin, dynamically typed wrapper: it makes sure the
    process is initialised, checks and normalises its arguments, and hands
    over to the engine ([ray.workflow.execution], [workflow_storage], ...).

    The embedding follows that shape:
    - Python values are a small tagged union [pyval];
    - exceptions are values carrying the method resolution order of their
      class, so that [except ValueError] is a membership test;
    - the module global [_is_workflow_initialized], the state of the Ray
      runtime and the state of the engine are threaded through a state and
      error monad [M];
    - the engine's functions are parameters of the development. *)

From Stdlib Require Import ZArith List Bool Lia.
From stdpp Require Import base option list strings gmap.

Set Warnings "-register-all,-notation-for-abbreviation".

Local Open Scope string_scope.
Local Open Scope list_scope.

(** ** Workflow status *)

(** Modelled from the spec: [WorkflowStatus] is declared in
    [ray.workflow.common], which is imported by [api.py]; the data model
    gives it as a closed enum of six members.  The docstring of [list_all]
    fixes the string form of a member as its name.  Whether the members are
    also instances of [str] is part of the missing declaration and is a
    parameter of [api]. *)
Inductive WorkflowStatus :=
| NONE | RUNNING | SUCCESSFUL | FAILED | CANCELED | RESUMABLE.

#[global] Instance WorkflowStatus_eq_dec : EqDecision WorkflowStatus.
Proof. solve_decision. Defined.

Definition WorkflowStatus_to_nat (s : WorkflowStatus) : nat :=
  match s with
  | NONE => 0 | RUNNING => 1 | SUCCESSFUL => 2
  | FAILED => 3 | CANCELED => 4 | RESUMABLE => 5
  end.

Definition WorkflowStatus_of_nat (n : nat) : option WorkflowStatus :=
  match n with
  | 0 => Some NONE | 1 => Some RUNNING | 2 => Some SUCCESSFUL
  | 3 => Some FAILED | 4 => Some CANCELED | 5 => Some RESUMABLE
  | _ => None
  end.

Lemma WorkflowStatus_of_to_nat (s : WorkflowStatus) :
  WorkflowStatus_of_nat (WorkflowStatus_to_nat s) = Some s.
Proof. by destruct s. Qed.

#[global] Instance WorkflowStatus_countable : Countable WorkflowStatus :=
  inj_countable WorkflowStatus_to_nat WorkflowStatus_of_nat WorkflowStatus_of_to_nat.

(** [list(WorkflowStatus)]: the members in declaration order. *)
Definition WorkflowStatus_members : list WorkflowStatus :=
  [NONE; RUNNING; SUCCESSFUL; FAILED; CANCELED; RESUMABLE].

(** The value of a member, the string accepted by [WorkflowStatus(...)]. *)
Definition WorkflowStatus_value (s : WorkflowStatus) : string :=
  match s with
  | NONE => "NONE" | RUNNING => "RUNNING" | SUCCESSFUL => "SUCCESSFUL"
  | FAILED => "FAILED" | CANCELED => "CANCELED" | RESUMABLE => "RESUMABLE"
  end.

(** ** Python values *)
Inductive pyval :=
| PyNone
| PyBool (b : bool)
| PyInt (z : Z)
| PyStr (s : string)
| PyStatus (st : WorkflowStatus)
| PySet (elems : list pyval)
| PyDict (items : list (string * pyval))
| PyClass (name : string) (mro : list string)
| PyRef (addr : nat).

(** ** Exceptions

    An exception carries the names of the classes in the method resolution
    order of its class and its constructor arguments. *)
Record exn := mk_exn { exn_mro : list string; exn_args : list pyval }.

Definition isinstance_exn (e : exn) (cls : string) : bool :=
  bool_decide (cls ∈ exn_mro e).

Definition exn_class (e : exn) : string :=
  match exn_mro e with
  | c :: _ => c
  | [] => "object"
  end.

Definition TypeError (msg : string) : exn :=
  mk_exn ["TypeError"; "Exception"; "BaseException"; "object"] [PyStr msg].

Definition ValueError (msg : string) : exn :=
  mk_exn ["ValueError"; "Exception"; "BaseException"; "object"] [PyStr msg].

Definition RuntimeError (msg : string) : exn :=
  mk_exn ["RuntimeError"; "Exception"; "BaseException"; "object"] [PyStr msg].

(** Modelled from the spec: [WorkflowRunningError] and
    [WorkflowNotFoundError] are declared in [ray.workflow.common].  The
    error taxonomy lists them as classes of their own, next to the
    [ValueError]-class error of the status query; their resolution order
    contains no [ValueError]. *)
Definition WorkflowRunningError (operation : string) (workflow_id : pyval) : exn :=
  mk_exn ["WorkflowRunningError"; "Exception"; "BaseException"; "object"]
         [PyStr operation; workflow_id].

(** Modelled from the spec: [WorkflowNotFoundError], declared next to
    [WorkflowRunningError], is the taxonomy's error for an unknown id. *)
Definition WorkflowNotFoundError (workflow_id : pyval) : exn :=
  mk_exn ["WorkflowNotFoundError"; "Exception"; "BaseException"; "object"]
         [workflow_id].

(** ** Results and the state-and-error monad *)
Inductive Result (A : Type) :=
| Return (a : A)
| Raise (e : exn).
Arguments Return {A} a.
Arguments Raise {A} e.

(** [WorkflowStatus(s)]: lookup of a member by value, [ValueError] when no
    member has that value. *)
Definition WorkflowStatus_of_string (s : string) : Result WorkflowStatus :=
  match list_find (λ m, WorkflowStatus_value m = s) WorkflowStatus_members with
  | Some (_, m) => Return m
  | None => Raise (ValueError (s +:+ " is not a valid WorkflowStatus"))
  end.

(** [WorkflowStatus(v)] on an arbitrary value: a member is returned as it
    is, a string is looked up, anything else is no member's value. *)
Definition WorkflowStatus_call (v : pyval) : Result WorkflowStatus :=
  match v with
  | PyStatus st => Return st
  | PyStr s => WorkflowStatus_of_string s
  | _ => Raise (ValueError "value is not a valid WorkflowStatus")
  end.

(** ** Calls into the collaborators of [api.py]

    One constructor per call site of [api.py] that leaves the module.  The
    log of these calls is ghost state: it lets a statement say which calls a
    run of an API function made, and in which state of initialisation. *)
Inductive Call :=
| Call_record_library_usage (library : string)
| Call_ray_init (storage : string)
| Call_init_management_actor
| Call_init_manager
| Call_execution_resume (workflow_id : pyval)
| Call_execution_get_output (workflow_id name : pyval)
| Call_execution_list_all (status_filter : gset WorkflowStatus)
| Call_execution_resume_all (include_failed : pyval)
| Call_execution_get_status (workflow_id : string)
| Call_execution_get_metadata (workflow_id name : pyval)
| Call_execution_cancel (workflow_id : string)
| Call_delete_workflow (workflow_id : pyval).

(** The calls that reach the engine or its storage, as opposed to the calls
    [init] makes to set the process up. *)
Definition is_engine_call (c : Call) : bool :=
  match c with
  | Call_record_library_usage _ | Call_ray_init _
  | Call_init_management_actor | Call_init_manager => false
  | _ => true
  end.

(** A logged call, with whether the workflow module and Ray were both
    initialised when the call was made. *)
Record LogEntry := mk_entry { entry_call : Call; entry_ready : bool }.

(** ** The process state *)
Record World (S : Type) := mk_World {
  ray_is_initialized : bool;          (* [ray.is_initialized()] *)
  ray_storage : option string;        (* the [storage=] Ray was started with *)
  _is_workflow_initialized : bool;    (* the module global of [api.py] *)
  management_actor : bool;            (* the management actor exists *)
  serialization_manager : bool;       (* the serialization manager exists *)
  engine : S;                         (* everything the engine persists *)
  calls : list LogEntry               (* ghost: calls made so far, oldest first *)
}.
Arguments mk_World {S}.
Arguments ray_is_initialized {S}.
Arguments ray_storage {S}.
Arguments _is_workflow_initialized {S}.
Arguments management_actor {S}.
Arguments serialization_manager {S}.
Arguments engine {S}.
Arguments calls {S}.

Definition M (S A : Type) : Type := World S → Result A * World S.

#[global] Instance M_ret {S} : MRet (M S) := λ A a w, (Return a, w).

(** Sequencing as Python does it: an exception ends the block, and what the
    block did to the state before raising stays done. *)
#[global] Instance M_bind {S} : MBind (M S) := λ A B k m w,
  match m w with
  | (Return a, w') => k a w'
  | (Raise e, w') => (Raise e, w')
  end.

Definition raise {S A} (e : exn) : M S A := λ w, (Raise e, w).

(** [try: body except cls: handler]. *)
Definition try_except {S A} (body : M S A) (cls : string) (handler : M S A) : M S A :=
  λ w,
    match body w with
    | (Return a, w') => (Return a, w')
    | (Raise e, w') =>
        if isinstance_exn e cls then handler w' else (Raise e, w')
    end.

(** A pure computation that may raise, run inside [M]. *)
Definition lift {S A} (r : Result A) : M S A := λ w, (r, w).

Definition workflow_ready {S} (w : World S) : bool :=
  _is_workflow_initialized w && ray_is_initialized w.

Definition log {S} (c : Call) (w : World S) : World S :=
  mk_World (ray_is_initialized w) (ray_storage w) (_is_workflow_initialized w)
           (management_actor w) (serialization_manager w) (engine w)
           (calls w ++ [mk_entry c (workflow_ready w)]).

Definition set_engine {S} (s : S) (w : World S) : World S :=
  mk_World (ray_is_initialized w) (ray_storage w) (_is_workflow_initialized w)
           (management_actor w) (serialization_manager w) s (calls w).

(** A call into the engine: logged, then run on the engine's state. *)
Definition invoke {S A} (c : Call) (f : S → Result A * S) : M S A :=
  λ w, let w1 := log c w in
       let '(r, s') := f (engine w1) in (r, set_engine s' w1).

(** What a caller can observe of the process: everything but the ghost log. *)
Definition observable {S} (w : World S) : bool * option string * bool * bool * bool * S :=
  (ray_is_initialized w, ray_storage w, _is_workflow_initialized w,
   management_actor w, serialization_manager w, engine w).

(** ** Workflow graphs

    [f.bind] on a remote function [f], applied to arguments, builds a graph node
    whose arguments are values or other nodes.  The three remote functions
    [api.py] defines itself are the bodies a node of this file can have. *)
Inductive TaskBody :=
| get_message
| message_committed
| end_time (duration : pyval).

Inductive DAGArg (N : Type) :=
| ArgValue (v : pyval)
| ArgNode (n : N).
Arguments ArgValue {N} v.
Arguments ArgNode {N} n.

Inductive DAGNode :=
| FunctionNode (body : TaskBody)
               (args : list (DAGArg DAGNode))
               (kwargs : list (string * DAGArg DAGNode)).

Definition bind (f : TaskBody) (args : list (DAGArg DAGNode))
    (kwargs : list (string * DAGArg DAGNode)) : DAGNode :=
  FunctionNode f args kwargs.

(** ** Objects on the heap

    [options.__call__] updates a dictionary owned by the remote function it
    decorates, so remote functions are objects with an address. *)
Inductive PyObject :=
| RemoteFunction (_default_options : gmap string pyval)
| OtherObject (class_name : string).

(** [d.get(key)] on a dictionary given by its items. *)
Fixpoint dict_get (items : list (string * pyval)) (key : string) : pyval :=
  match items with
  | [] => PyNone
  | (k, v) :: rest => if bool_decide (k = key) then v else dict_get rest key
  end.

(** ** Graph objects

    [create] sets attributes on the graph node it is given, so the graph
    nodes handed to [create] are objects with an address. *)
Record DAGInputData := mk_DAGInputData {
  input_args : list pyval;
  input_kwargs : list (string * pyval)
}.

(** The functions [run_async] and [run] defined by one call of [create]:
    both close over the node and the input data of that call.  The graph of
    a node never changes, so the closure holds it by value. *)
Record WorkflowClosure := mk_WorkflowClosure {
  closure_dag_node : DAGNode;
  closure_input_data : DAGInputData
}.

Record DAGObject := mk_DAGObject {
  object_node : DAGNode;                       (* the graph the object is *)
  attr_run_async : option WorkflowClosure;     (* the attribute [run_async] *)
  attr_run : option WorkflowClosure            (* the attribute [run] *)
}.

Definition AttributeError (msg : string) : exn :=
  mk_exn ["AttributeError"; "Exception"; "BaseException"; "object"] [PyStr msg].

(** A call into Ray or the engine, run on the engine's state. *)
Definition call_engine {S A} (f : S → Result A * S) : M S A :=
  λ w, let '(r, s') := f (engine w) in (r, set_engine s' w).

Module api.
Section api.
(** The state of the engine and of its storage. *)
Context {S : Type}.

(** The functions of [ray.workflow.execution] that [api.py] calls, and the
    deletion offered by [ray.workflow.workflow_storage]. *)
Variable execution_resume : pyval → S → Result pyval * S.
Variable execution_get_output : pyval → pyval → S → Result pyval * S.
Variable execution_list_all :
  gset WorkflowStatus → S → Result (list (string * WorkflowStatus)) * S.
Variable execution_resume_all : pyval → S → Result pyval * S.
Variable execution_get_status : string → S → Result WorkflowStatus * S.
Variable execution_get_metadata : pyval → pyval → S → Result pyval * S.
Variable execution_cancel : string → S → Result unit * S.
Variable delete_workflow : pyval → S → Result unit * S.

(** Constants and helpers imported from [ray.workflow.common] and
    [ray.workflow.event_listener]: whether [WorkflowStatus] derives from
    [str], the key under which options are stored, the check of user
    metadata, and the timer's listener class. *)
Variable WorkflowStatus_is_str : bool.
Variable WORKFLOW_OPTIONS : string.
Variable validate_user_metadata : pyval → Result unit.
Variable TimerListener : pyval.

(** *** Collaborators of [init] *)

(** Modelled from the spec: [ray.init] belongs to the Ray runtime, which
    is not part of [api.py].  The docstring of [init] says that Ray is
    initialised with the given storage; a runtime that is already up
    refuses to be initialised again, which is the reading under which the
    guard in [init] matters. *)
Definition ray_init (storage : string) : M S unit := λ w,
  let w1 := log (Call_ray_init storage) w in
  if ray_is_initialized w1
  then (Raise (RuntimeError "Maybe you called ray.init twice by accident?"), w1)
  else (Return (),
        mk_World true (Some storage) (_is_workflow_initialized w1)
                 (management_actor w1) (serialization_manager w1)
                 (engine w1) (calls w1)).

(** Modelled from the spec: [workflow_access.init_management_actor] is
    not part of [api.py].  The controller is created once per process
    group and can be re-created idempotently: the actor exists afterwards,
    whether or not it existed before. *)
Definition init_management_actor : M S unit := λ w,
  let w1 := log Call_init_management_actor w in
  (Return (),
   mk_World (ray_is_initialized w1) (ray_storage w1) (_is_workflow_initialized w1)
            true (serialization_manager w1) (engine w1) (calls w1)).

(** Modelled from the spec: [serialization.init_manager] is not part of
    [api.py]; like the management actor, the manager exists afterwards. *)
Definition init_manager : M S unit := λ w,
  let w1 := log Call_init_manager w in
  (Return (),
   mk_World (ray_is_initialized w1) (ray_storage w1) (_is_workflow_initialized w1)
            (management_actor w1) true (engine w1) (calls w1)).

(** [usage_lib.record_library_usage]: telemetry, visible in the log only. *)
Definition record_library_usage (library : string) : M S unit := λ w,
  (Return (), log (Call_record_library_usage library) w).

Definition set_is_workflow_initialized (b : bool) : M S unit := λ w,
  (Return (),
   mk_World (ray_is_initialized w) (ray_storage w) b
            (management_actor w) (serialization_manager w) (engine w) (calls w)).

(** *** [init] and [_ensure_workflow_initialized] *)
Definition init : M S unit :=
  _ ← record_library_usage "workflow";
  _ ← (λ w, if negb (ray_is_initialized w)
            then ray_init "file:///tmp/ray/workflow_data" w
            else (Return (), w));
  _ ← init_management_actor;
  _ ← init_manager;
  set_is_workflow_initialized true.

Definition _ensure_workflow_initialized : M S unit := λ w,
  if negb (_is_workflow_initialized w) || negb (ray_is_initialized w)
  then init w
  else (Return (), w).

(** *** Dynamic type tests *)

(** The string a value is, if it is an instance of [str]: a string, or a
    status when [WorkflowStatus] derives from [str]. *)
Definition as_str (v : pyval) : option string :=
  match v with
  | PyStr s => Some s
  | PyStatus st => if WorkflowStatus_is_str then Some (WorkflowStatus_value st) else None
  | _ => None
  end.

Definition isinstance_str (v : pyval) : bool :=
  match as_str v with Some _ => true | None => false end.

Definition isinstance_WorkflowStatus (v : pyval) : bool :=
  match v with PyStatus _ => true | _ => false end.

(** *** The guarded entry points *)
Definition resume (workflow_id : pyval) : M S pyval :=
  _ ← _ensure_workflow_initialized;
  invoke (Call_execution_resume workflow_id) (execution_resume workflow_id).

Definition get_output (workflow_id name : pyval) : M S pyval :=
  _ ← _ensure_workflow_initialized;
  invoke (Call_execution_get_output workflow_id name)
         (execution_get_output workflow_id name).

(** [{WorkflowStatus(s) for s in status_filter}]: the elements are
    converted in turn, and the first one that is no member's value raises. *)
Fixpoint statuses_of_strings (elems : list pyval) : Result (gset WorkflowStatus) :=
  match elems with
  | [] => Return ∅
  | s :: rest =>
      match WorkflowStatus_call s with
      | Return st =>
          match statuses_of_strings rest with
          | Return sts => Return ({[st]} ∪ sts)
          | Raise e => Raise e
          end
      | Raise e => Raise e
      end
  end.

(** The statuses in a set, for a set whose elements are all statuses. *)
Fixpoint statuses_of_set (elems : list pyval) : gset WorkflowStatus :=
  match elems with
  | [] => ∅
  | PyStatus st :: rest => {[st]} ∪ statuses_of_set rest
  | _ :: rest => statuses_of_set rest
  end.

Definition list_all (status_filter : pyval) : M S (list (string * WorkflowStatus)) :=
  _ ← _ensure_workflow_initialized;
  status_filter ←
    (if isinstance_str status_filter
     then st ← lift (WorkflowStatus_call status_filter);
          mret ({[st]} : gset WorkflowStatus)
     else
       match status_filter with
       | PyStatus st => mret {[st]}
       | PySet elems =>
           if forallb isinstance_str elems
           then lift (statuses_of_strings elems)
           else if negb (forallb isinstance_WorkflowStatus elems)
           then raise (TypeError
                  "status_filter contains element which is not a type of `WorkflowStatus or str`.")
           else mret (statuses_of_set elems)
       | PyNone => mret (list_to_set WorkflowStatus_members ∖ {[NONE]})
       | _ => raise (TypeError
                  "status_filter must be WorkflowStatus or a set of WorkflowStatus.")
       end);
  invoke (Call_execution_list_all status_filter) (execution_list_all status_filter).

Definition resume_all (include_failed : pyval) : M S pyval :=
  _ ← _ensure_workflow_initialized;
  invoke (Call_execution_resume_all include_failed)
         (execution_resume_all include_failed).

Definition get_status (workflow_id : pyval) : M S WorkflowStatus :=
  _ ← _ensure_workflow_initialized;
  match as_str workflow_id with
  | Some id => invoke (Call_execution_get_status id) (execution_get_status id)
  | None => raise (TypeError "workflow_id has to be a string type.")
  end.

Definition get_metadata (workflow_id name : pyval) : M S pyval :=
  _ ← _ensure_workflow_initialized;
  invoke (Call_execution_get_metadata workflow_id name)
         (execution_get_metadata workflow_id name).

Definition cancel (workflow_id : pyval) : M S unit :=
  _ ← _ensure_workflow_initialized;
  match as_str workflow_id with
  | Some id => invoke (Call_execution_cancel id) (execution_cancel id)
  | None => raise (TypeError "workflow_id has to be a string type.")
  end.

Definition delete (workflow_id : pyval) : M S unit :=
  _ ← _ensure_workflow_initialized;
  _ ← try_except
        (status ← get_status workflow_id;
         if bool_decide (status = RUNNING)
         then raise (WorkflowRunningError "DELETE" workflow_id)
         else mret ())
        "ValueError"
        (raise (WorkflowNotFoundError workflow_id));
  invoke (Call_delete_workflow workflow_id) (delete_workflow workflow_id).

(** *** The event bridge *)

(** [issubclass(v, EventListener)]; Python raises [TypeError] itself when
    [v] is not a class. *)
Definition issubclass_EventListener (v : pyval) : Result bool :=
  match v with
  | PyClass _ mro => Return (bool_decide ("EventListener" ∈ mro))
  | _ => Raise (TypeError "issubclass() arg 1 must be a class")
  end.

Definition wait_for_event (event_listener_type : pyval)
    (args : list (DAGArg DAGNode)) (kwargs : list (string * DAGArg DAGNode))
    : M S DAGNode :=
  is_listener ← lift (issubclass_EventListener event_listener_type);
  if negb is_listener
  then raise (TypeError
         "Event listener type is not a subclass of workflow.EventListener")
  else mret (bind message_committed
               [ArgValue event_listener_type;
                ArgNode (bind get_message
                           (ArgValue event_listener_type :: args) kwargs)]
               []).

(** An argument [list_all] rejects for its type: it is not [None], not
    an instance of [str] or of [WorkflowStatus], and not a set whose
    elements are all instances of [str] or all instances of
    [WorkflowStatus]. *)
Definition other_argument (v : pyval) : bool :=
  negb (isinstance_str v)
  && match v with
     | PyNone | PyStatus _ => false
     | PySet elems =>
         negb (forallb isinstance_str elems)
         && negb (forallb isinstance_WorkflowStatus elems)
     | _ => true
     end.

Definition sleep (duration : pyval) : M S DAGNode :=
  wait_for_event TimerListener [ArgNode (bind (end_time duration) [] [])] [].

(** *** [class options] *)
Definition valid_options : list string :=
  ["name"; "metadata"; "catch_exceptions"; "max_retries"; "allow_inplace";
   "checkpoint"].

(** An instance of [options]: its attribute [self.options]. *)
Record options := mk_options { options_dict : gmap string pyval }.

Definition options_init (workflow_options : list (string * pyval)) : Result options :=
  let invalid_keywords :=
    filter (λ k, k ∉ valid_options) (workflow_options.*1) in
  if negb (bool_decide (invalid_keywords = []))
  then Raise (ValueError "Invalid option keywords for workflow steps.")
  else
    match validate_user_metadata (dict_get workflow_options "metadata") with
    | Raise e => Raise e
    | Return _ =>
        Return (mk_options
          {[ "_metadata" := PyDict [(WORKFLOW_OPTIONS, PyDict workflow_options)] ]})
    end.

Definition options_keys (self : options) : list string := ["_metadata"].

(** [self.options[key]]; a missing key is a [KeyError]. *)
Definition options_getitem (self : options) (key : string) : Result pyval :=
  match options_dict self !! key with
  | Some v => Return v
  | None =>
      Raise (mk_exn ["KeyError"; "LookupError"; "Exception"; "BaseException"; "object"]
                    [PyStr key])
  end.

(** [options.__call__(self, f)]: [f._default_options.update(self.options)]
    writes into the dictionary of the very object [f] refers to; the
    entries of [self.options] win over entries with the same key. *)
Definition options_call (self : options) (f : pyval) (heap : gmap nat PyObject)
    : Result pyval * gmap nat PyObject :=
  match f with
  | PyRef addr =>
      match heap !! addr with
      | Some (RemoteFunction _default_options) =>
          (Return (PyRef addr),
           <[addr := RemoteFunction (options_dict self ∪ _default_options)]> heap)
      | _ =>
          (Raise (ValueError "Only apply 'workflow.options' to Ray remote functions."),
           heap)
      end
  | _ =>
      (Raise (ValueError "Only apply 'workflow.options' to Ray remote functions."),
       heap)
  end.

(** *** [create] and [continuation] *)

(** What [create] and [continuation] reach outside [api.py]:
    [execution.run], [ray.get], the method [execute] of a graph node, and
    [in_workflow_execution] of [ray.workflow.workflow_context]. *)
Variable execution_run :
  DAGNode → DAGInputData → pyval → pyval → S → Result pyval * S.
Variable ray_get : pyval → S → Result pyval * S.
Variable dag_execute : DAGNode → S → Result pyval * S.
Variable in_workflow_execution : S → bool.

(** [isinstance(v, DAGNode)]: the address and the object, if [v] refers to
    a graph node. *)
Definition isinstance_DAGNode (v : pyval) (heap : gmap nat DAGObject)
    : option (nat * DAGObject) :=
  match v with
  | PyRef addr => (λ obj, (addr, obj)) <$> heap !! addr
  | _ => None
  end.

(** The function [run_async] defined inside [create]. *)
Definition run_async (closure : WorkflowClosure) (workflow_id metadata : pyval)
    : M S pyval :=
  _ ← _ensure_workflow_initialized;
  call_engine (execution_run (closure_dag_node closure) (closure_input_data closure)
                             workflow_id metadata).

(** The function [run] defined inside [create]: [ray.get] of what the
    [run_async] of the same call of [create] returns. *)
Definition run (closure : WorkflowClosure) (workflow_id metadata : pyval)
    : M S pyval :=
  ref ← run_async closure workflow_id metadata;
  call_engine (ray_get ref).

Definition create (dag_node : pyval) (args : list pyval)
    (kwargs : list (string * pyval)) (heap : gmap nat DAGObject)
    : Result pyval * gmap nat DAGObject :=
  match isinstance_DAGNode dag_node heap with
  | None => (Raise (TypeError "Input should be a DAG."), heap)
  | Some (addr, obj) =>
      let input_data := mk_DAGInputData args kwargs in
      let closure := mk_WorkflowClosure (object_node obj) input_data in
      (Return dag_node,
       <[addr := mk_DAGObject (object_node obj) (Some closure) (Some closure)]> heap)
  end.

(** [dag_node.run_async(workflow_id, metadata)] and
    [dag_node.run(workflow_id, metadata)]: the attribute is looked up on the
    object and called. *)
Definition call_run_async (dag_node : pyval) (heap : gmap nat DAGObject)
    (workflow_id metadata : pyval) : M S pyval :=
  match isinstance_DAGNode dag_node heap with
  | Some (_, obj) =>
      match attr_run_async obj with
      | Some closure => run_async closure workflow_id metadata
      | None => raise (AttributeError "object has no attribute 'run_async'")
      end
  | None => raise (AttributeError "object has no attribute 'run_async'")
  end.

Definition call_run (dag_node : pyval) (heap : gmap nat DAGObject)
    (workflow_id metadata : pyval) : M S pyval :=
  match isinstance_DAGNode dag_node heap with
  | Some (_, obj) =>
      match attr_run obj with
      | Some closure => run closure workflow_id metadata
      | None => raise (AttributeError "object has no attribute 'run'")
      end
  | None => raise (AttributeError "object has no attribute 'run'")
  end.

Definition continuation (dag_node : pyval) (heap : gmap nat DAGObject) (w : World S)
    : Result pyval * World S * gmap nat DAGObject :=
  match isinstance_DAGNode dag_node heap with
  | None => (Raise (TypeError "Input should be a DAG."), w, heap)
  | Some (_, obj) =>
      if in_workflow_execution (engine w)
      then let '(r, heap') := create dag_node [] [] heap in (r, w, heap')
      else let '(r, w') :=
             (ref ← call_engine (dag_execute (object_node obj));
              call_engine (ray_get ref)) w in
           (r, w', heap)
  end.

(** *** Unpacking an [options] instance

    [**self] on an object with [keys] and [__getitem__]: the item of each
    key, in the order of [keys]. *)
Fixpoint getitems (self : options) (keys : list string)
    : Result (list (string * pyval)) :=
  match keys with
  | [] => Return []
  | key :: rest =>
      match options_getitem self key with
      | Raise e => Raise e
      | Return v =>
          match getitems self rest with
          | Raise e => Raise e
          | Return items => Return ((key, v) :: items)
          end
      end
  end.

Definition options_unpack (self : options) : Result (list (string * pyval)) :=
  getitems self (options_keys self).

(** *** Sessions

    A call of one of the guarded entry points, and a session: calls made one
    after the other in the same process, each whatever the outcome of the
    calls before it. *)
Inductive ApiCall :=
| Api_resume (workflow_id : pyval)
| Api_get_output (workflow_id name : pyval)
| Api_list_all (status_filter : pyval)
| Api_resume_all (include_failed : pyval)
| Api_get_status (workflow_id : pyval)
| Api_get_metadata (workflow_id name : pyval)
| Api_cancel (workflow_id : pyval)
| Api_delete (workflow_id : pyval).

Definition api_call (c : ApiCall) (w : World S) : World S :=
  match c with
  | Api_resume workflow_id => (resume workflow_id w).2
  | Api_get_output workflow_id name => (get_output workflow_id name w).2
  | Api_list_all status_filter => (list_all status_filter w).2
  | Api_resume_all include_failed => (resume_all include_failed w).2
  | Api_get_status workflow_id => (get_status workflow_id w).2
  | Api_get_metadata workflow_id name => (get_metadata workflow_id name w).2
  | Api_cancel workflow_id => (cancel workflow_id w).2
  | Api_delete workflow_id => (delete workflow_id w).2
  end.

Definition session (cs : list ApiCall) (w : World S) : World S :=
  foldl (λ w c, api_call c w) w cs.
End api.
End api.

(** ** Running an event graph

    The bodies of the remote functions [wait_for_event] and [sleep] define
    are translated from [api.py]; the order in which the engine runs a graph
    is not in [api.py]. *)
Inductive BridgeStep :=
| Polled (listener : string) (event : pyval)
| Checkpointed (task : TaskBody) (output : pyval)
| Acknowledged (listener : string) (event : pyval).

Record ExecState (Src : Type) := mk_ExecState {
  source : Src;                 (* the external event sources *)
  steps : list BridgeStep       (* ghost: what happened so far, oldest first *)
}.
Arguments mk_ExecState {Src}.
Arguments source {Src}.
Arguments steps {Src}.

Module bridge.
Section bridge.
Context {Src : Type}.

(** The listener classes are user code: what polling a listener of a given
    class yields, and what telling it that the event is checkpointed does. *)
Variable poll_for_event :
  string → list pyval → list (string * pyval) → Src → Result pyval * Src.
Variable event_checkpointed : string → pyval → Src → Result unit * Src.
(** [time.time() + duration], read off the source's clock. *)
Variable time_plus : Src → pyval → pyval.

Definition record_step (s : BridgeStep) (st : ExecState Src) : ExecState Src :=
  mk_ExecState (source st) (steps st ++ [s]).

(** The bodies of the remote functions of [api.py], applied to resolved
    arguments.  A call that does not fit the signature is a [TypeError]. *)
Definition run_task (body : TaskBody) (args : list pyval)
    (kwargs : list (string * pyval)) (st : ExecState Src)
    : Result pyval * ExecState Src :=
  match body, args with
  | get_message, PyClass name _ :: rest =>
      match poll_for_event name rest kwargs (source st) with
      | (Return event, src) =>
          (Return event, record_step (Polled name event) (mk_ExecState src (steps st)))
      | (Raise e, src) => (Raise e, mk_ExecState src (steps st))
      end
  | message_committed, [PyClass name _; event] =>
      match kwargs with
      | [] =>
          match event_checkpointed name event (source st) with
          | (Return _, src) =>
              (Return event,
               record_step (Acknowledged name event) (mk_ExecState src (steps st)))
          | (Raise e, src) => (Raise e, mk_ExecState src (steps st))
          end
      | _ :: _ => (Raise (TypeError "unexpected keyword argument"), st)
      end
  | end_time duration, [] =>
      match kwargs with
      | [] => (Return (time_plus (source st) duration), st)
      | _ :: _ => (Raise (TypeError "unexpected keyword argument"), st)
      end
  | _, _ => (Raise (TypeError "arguments do not fit the signature"), st)
  end.

(** Resolution of the positional and keyword arguments of a node, left to
    right, given how a node is executed. *)
Fixpoint resolve_args (exec : DAGNode → ExecState Src → Result pyval * ExecState Src)
    (args : list (DAGArg DAGNode)) (st : ExecState Src)
    : Result (list pyval) * ExecState Src :=
  match args with
  | [] => (Return [], st)
  | a :: rest =>
      match (match a with
             | ArgValue v => (Return v, st)
             | ArgNode n => exec n st
             end) with
      | (Return v, st1) =>
          match resolve_args exec rest st1 with
          | (Return vs, st2) => (Return (v :: vs), st2)
          | (Raise e, st2) => (Raise e, st2)
          end
      | (Raise e, st1) => (Raise e, st1)
      end
  end.

Fixpoint resolve_kwargs (exec : DAGNode → ExecState Src → Result pyval * ExecState Src)
    (kwargs : list (string * DAGArg DAGNode)) (st : ExecState Src)
    : Result (list (string * pyval)) * ExecState Src :=
  match kwargs with
  | [] => (Return [], st)
  | (k, a) :: rest =>
      match (match a with
             | ArgValue v => (Return v, st)
             | ArgNode n => exec n st
             end) with
      | (Return v, st1) =>
          match resolve_kwargs exec rest st1 with
          | (Return vs, st2) => (Return ((k, v) :: vs), st2)
          | (Raise e, st2) => (Raise e, st2)
          end
      | (Raise e, st1) => (Raise e, st1)
      end
  end.

(** Modelled from the spec: the graph walker and the task executor are in
    [ray.workflow.execution], not in [api.py].  A task starts once all of
    its declared dependencies have committed outputs; on success the
    output is persisted before it is reported to the walker, so before any
    dependent task starts; an exception ends the run. *)
Fixpoint exec_node (n : DAGNode) (st : ExecState Src) : Result pyval * ExecState Src :=
  match n with
  | FunctionNode body args kwargs =>
      match resolve_args exec_node args st with
      | (Return vs, st1) =>
          match resolve_kwargs exec_node kwargs st1 with
          | (Return kvs, st2) =>
              match run_task body vs kvs st2 with
              | (Return out, st3) =>
                  (Return out, record_step (Checkpointed body out) st3)
              | (Raise e, st3) => (Raise e, st3)
              end
          | (Raise e, st2) => (Raise e, st2)
          end
      | (Raise e, st1) => (Raise e, st1)
      end
  end.

(** The number of tasks in a graph. *)
Fixpoint dag_size (n : DAGNode) : nat :=
  match n with
  | FunctionNode _ args kwargs =>
      1 + list_sum (map (λ a, match a with ArgValue _ => 0 | ArgNode m => dag_size m end) args)
        + list_sum (map (λ ka, match ka.2 with ArgValue _ => 0 | ArgNode m => dag_size m end)
                        kwargs)
  end.

(** The tasks among the arguments of a node. *)
Definition upstream_size (args : list (DAGArg DAGNode))
    (kwargs : list (string * DAGArg DAGNode)) : nat :=
  list_sum (map (λ a, match a with ArgValue _ => 0 | ArgNode m => dag_size m end) args)
  + list_sum (map (λ ka, match ka.2 with ArgValue _ => 0 | ArgNode m => dag_size m end)
                  kwargs).
End bridge.
End bridge.

(** ** The checkpoint and resume engine

    The engine behind [resume] is [ray.workflow.execution], which is not part
    of [api.py].  What follows is the task executor, the walker and the
    controller's [run] and [resume] as the component design describes them,
    for tasks that compute integers. *)
Module execution.

(** Modelled from the spec: the output of a task is its result, or, for a
    task with [catch_exceptions], the pair of the result and the
    exception. *)
Inductive Value :=
| Plain (result : Z)
| Caught (result : option Z) (exception : option exn).

(** Modelled from the spec: a task node has upstream dependencies, an
    operation, and the options [checkpoint], [catch_exceptions] and
    [max_retries].  The operation is run by the task runtime on the resolved
    upstream outputs; what it returns or raises may also depend on when it
    runs, which is given by the runtime's clock.  Nodes are numbered by
    their position in the graph. *)
Record TaskNode := mk_TaskNode {
  deps : list nat;
  operation : nat → list Value → Result Z;
  checkpoint : bool;
  catch_exceptions : bool;
  max_retries : nat
}.

(** Modelled from the spec: a graph is acyclic when its nodes can be listed
    so that every node depends on earlier nodes only; graphs are given in
    such a listing, and anything else is rejected at construction. *)
Fixpoint acyclic_from (i : nat) (nodes : list TaskNode) : bool :=
  match nodes with
  | [] => true
  | t :: rest => forallb (λ d, Nat.ltb d i) (deps t) && acyclic_from (Datatypes.S i) rest
  end.

Definition acyclic (dag : list TaskNode) : bool := acyclic_from 0 dag.

(** Modelled from the spec: the error of a malformed graph. *)
Definition InvalidWorkflowError (msg : string) : exn :=
  mk_exn ["InvalidWorkflowError"; "Exception"; "BaseException"; "object"] [PyStr msg].

(** Ghost: what happened to the tasks, over all attempts: a task was run by
    the task runtime, or its output was persisted. *)
Inductive Event :=
| Executed (task : nat)
| Committed (task : nat).

#[global] Instance Event_eq_dec : EqDecision Event.
Proof. solve_decision. Defined.

(** Modelled from the spec: the state an attempt works on.  [budget]
    simulates the crash: it is the number of steps, dispatches and writes
    of a checkpoint, that the coordinator survives, [None] for a coordinator
    that does not die.  [clock] is the clock of the task runtime.  [store]
    holds the checkpoint records, output and retry count by task. *)
Record Runtime := mk_Runtime {
  budget : option nat;
  clock : nat;
  store : gmap nat (Value * nat);
  events : list Event
}.

(** The outcome of a step of the engine: it is done, the coordinator died,
    or a task failed for good: [Fail i e] stands for the
    [TaskExecutionError] of task [i], raised when its retries are exhausted,
    with the last exception [e] of the task as its cause. *)
Inductive Step (A : Type) :=
| Done (a : A) (rt : Runtime)
| Crash (rt : Runtime)
| Fail (task : nat) (cause : exn) (rt : Runtime).
Arguments Done {A} a rt.
Arguments Crash {A} rt.
Arguments Fail {A} task cause rt.

(** Modelled from the spec: the executor dispatches the operation to the
    task runtime.  An exception is wrapped as a normal output if
    [catch_exceptions] is set; otherwise the task is retried while retries
    remain, the retry count going up, and fails for good when they are
    exhausted.  The coordinator can die before any dispatch. *)
Fixpoint dispatch (i : nat) (t : TaskNode) (ins : list Value)
    (retries_left retry_count : nat) (rt : Runtime) : Step (Value * nat) :=
  match budget rt with
  | Some 0 => Crash rt
  | _ =>
      let rt1 := mk_Runtime (pred <$> budget rt) (Datatypes.S (clock rt)) (store rt)
                            (events rt ++ [Executed i]) in
      match operation t (clock rt) ins with
      | Return z =>
          Done (if catch_exceptions t then Caught (Some z) None else Plain z, retry_count) rt1
      | Raise e =>
          if catch_exceptions t
          then Done (Caught None (Some e), retry_count) rt1
          else match retries_left with
               | 0 => Fail i e rt1
               | Datatypes.S n => dispatch i t ins n (Datatypes.S retry_count) rt1
               end
      end
  end.

(** Modelled from the spec: the write of a checkpoint record.  The
    coordinator can die after a task has run and before its output is
    persisted. *)
Definition persist (i : nat) (record : Value * nat) (rt : Runtime) : Step unit :=
  match budget rt with
  | Some 0 => Crash rt
  | _ =>
      Done () (mk_Runtime (pred <$> budget rt) (clock rt) (<[i := record]> (store rt))
                          (events rt ++ [Committed i]))
  end.

(** Modelled from the spec: the executor runs a task that has no committed
    output: on completion the output is persisted before it is reported to
    the walker if [checkpoint] is set, and held in memory only otherwise. *)
Definition execute (i : nat) (t : TaskNode) (ins : list Value) (rt : Runtime)
    : Step Value :=
  match dispatch i t ins (max_retries t) 0 rt with
  | Done (v, retry_count) rt1 =>
      if checkpoint t
      then match persist i (v, retry_count) rt1 with
           | Done _ rt2 => Done v rt2
           | Crash rt2 => Crash rt2
           | Fail j e rt2 => Fail j e rt2
           end
      else Done v rt1
  | Crash rt1 => Crash rt1
  | Fail j e rt1 => Fail j e rt1
  end.

(** Modelled from the spec: the walker feeds each task its upstream
    outputs, here from the results it holds in memory. *)
Definition inputs (t : TaskNode) (memory : gmap nat Value) : option (list Value) :=
  mapM (λ d, memory !! d) (deps t).

(** Modelled from the spec: the walker takes the nodes in dependency
    order.  A node with a committed output is not executed: its recorded
    output is fed to its dependents.  Any other node goes to the executor.
    A crash loses [memory]. *)
Fixpoint walk (i : nat) (nodes : list TaskNode) (memory : gmap nat Value)
    (rt : Runtime) : Step (gmap nat Value) :=
  match nodes with
  | [] => Done memory rt
  | t :: rest =>
      match store rt !! i with
      | Some (v, _) => walk (Datatypes.S i) rest (<[i := v]> memory) rt
      | None =>
          match inputs t memory with
          | None => Fail i (InvalidWorkflowError "unresolved dependency") rt
          | Some ins =>
              match execute i t ins rt with
              | Done v rt1 => walk (Datatypes.S i) rest (<[i := v]> memory) rt1
              | Crash rt1 => Crash rt1
              | Fail j e rt1 => Fail j e rt1
              end
          end
      end
  end.

(** Modelled from the spec: what is persisted for one workflow: its
    status, the graph, the checkpoint records, and the output or the
    failure, the failed task and its exception, once it has one.
    [now] is the clock of the task runtime, which goes on between attempts;
    [history] is ghost state. *)
Record Workflow := mk_Workflow {
  status : WorkflowStatus;
  dag : list TaskNode;
  committed : gmap nat (Value * nat);
  output : option Value;
  failure : option (nat * exn);
  now : nat;
  history : list Event
}.

(** Modelled from the spec: the output of a workflow is the output of its
    sink, here the last node. *)
Definition sink (dag : list TaskNode) : nat := pred (length dag).

(** Modelled from the spec: one attempt over the persisted state of a
    workflow.  When all tasks are done the workflow is [SUCCESSFUL] and its
    output is recorded; when the coordinator died it is [RESUMABLE] and the
    checkpoints are retained; when a task failed for good it is [FAILED]. *)
Definition attempt (budget : option nat) (wf : Workflow) : Workflow :=
  match walk 0 (dag wf) ∅ (mk_Runtime budget (now wf) (committed wf) (history wf)) with
  | Done memory rt =>
      mk_Workflow SUCCESSFUL (dag wf) (store rt) (memory !! sink (dag wf)) None
                  (clock rt) (events rt)
  | Crash rt =>
      mk_Workflow RESUMABLE (dag wf) (store rt) None None (clock rt) (events rt)
  | Fail i e rt =>
      mk_Workflow FAILED (dag wf) (store rt) None (Some (i, e)) (clock rt) (events rt)
  end.

(** Modelled from the spec: [run] rejects a graph with a cycle, and
    otherwise starts the first attempt on an empty checkpoint store. *)
Definition run (budget : option nat) (dag : list TaskNode) : option Workflow :=
  if acyclic dag
  then Some (attempt budget (mk_Workflow RUNNING dag ∅ None None 0 []))
  else None.

(** Modelled from the spec: [resume] re-invokes the walker over the same
    graph if the status is [RESUMABLE] or [FAILED]; a complete workflow
    returns its result immediately. *)
Definition resume (budget : option nat) (wf : Workflow) : Workflow :=
  match status wf with
  | RESUMABLE | FAILED => attempt budget wf
  | _ => wf
  end.

(** Modelled from the spec: the testable property's scenario: [run], a
    [resume] after each simulated crash, and a last [resume] that is left to
    finish.  [crashes] gives, per attempt, the number of steps the
    coordinator survives. *)
Definition run_then_resume (crashes : list nat) (dag : list TaskNode)
    : option Workflow :=
  match crashes with
  | [] => run None dag
  | k :: ks =>
      wf ← run (Some k) dag;
      Some (resume None (foldl (λ wf k, resume (Some k) wf) wf ks))
  end.

(** How many times a task was executed, over all attempts. *)
Definition executed (i : nat) (wf : Workflow) : nat :=
  length (filter (λ ev, ev = Executed i) (history wf)).

(** *** Statement devices *)

(** The output of a task does not depend on when it runs. *)
Definition deterministic (t : TaskNode) : Prop :=
  ∀ c c' ins, operation t c ins = operation t c' ins.

(** A committed task was executed, then committed once, and not executed
    again; a task that is not committed was never committed. *)
Definition committed_once (i : nat) (store : gmap nat (Value * nat))
    (events : list Event) : Prop :=
  match store !! i with
  | Some _ =>
      ∃ before after,
        events = before ++ Committed i :: after
        ∧ Executed i ∈ before ∧ (Committed i ∉ before)
        ∧ (Executed i ∉ after) ∧ (Committed i ∉ after)
  | None => Committed i ∉ events
  end.

(** *** The meaning of a graph of deterministic tasks

    What a task gives on its inputs, an output or an exception that is not
    caught, and the outputs of the tasks by position up to the first task
    that fails, computed without store, budget or clock: what the walker
    is checked against. *)
Definition task_outcome (t : TaskNode) (ins : list Value) : Value + exn :=
  match operation t 0 ins with
  | Return z => inl (if catch_exceptions t then Caught (Some z) None else Plain z)
  | Raise e => if catch_exceptions t then inl (Caught None (Some e)) else inr e
  end.

Fixpoint values_from (nodes : list TaskNode) (acc : list Value)
    : list Value * option (nat * exn) :=
  match nodes with
  | [] => (acc, None)
  | t :: rest =>
      match task_outcome t (default [] (mapM (λ d, acc !! d) (deps t))) with
      | inl v => values_from rest (acc ++ [v])
      | inr e => (acc, Some (length acc, e))
      end
  end.

(** The persisted state of a workflow between attempts on [dag0], for
    deterministic tasks. *)
Definition sound (dag0 : list TaskNode) (wf : Workflow) : Prop :=
  dag wf = dag0
  ∧ (∀ j v n, committed wf !! j = Some (v, n) → (values_from dag0 []).1 !! j = Some v)
  ∧ match status wf with
    | SUCCESSFUL =>
        ((values_from dag0 []).2 = None)
        ∧ (output wf = (values_from dag0 []).1 !! sink dag0) ∧ failure wf = None
    | FAILED =>
        output wf = None ∧ (failure wf = (values_from dag0 []).2) ∧ is_Some (failure wf)
    | RESUMABLE => True
    | _ => False
    end.

(** What a dispatch does to the state of an attempt: the store is as it
    was, the history has grown by executions of the task, at least [least]
    of them, and a coordinator that cannot die has not become mortal. *)
Definition dispatched (i least : nat) (rt rt' : Runtime) : Prop :=
  store rt' = store rt
  ∧ (∃ k, events rt' = events rt ++ replicate (least + k) (Executed i))
  ∧ (budget rt = None → budget rt' = None).

(** The persisted state of a workflow between attempts on [dag0], for tasks
    of any kind: the history accounts for every committed output, the
    workflow is not [RUNNING], and a workflow that succeeded has committed
    the output of every task that asks for a checkpoint and, unless the
    graph is empty, has an output. *)
Definition logged (dag0 : list TaskNode) (wf : Workflow) : Prop :=
  dag wf = dag0
  ∧ (∀ i, committed_once i (committed wf) (history wf))
  ∧ match status wf with
    | SUCCESSFUL =>
        (∀ i t, dag0 !! i = Some t → checkpoint t = true → is_Some (committed wf !! i))
        ∧ (dag0 ≠ [] → is_Some (output wf))
    | FAILED => is_Some (failure wf)
    | RESUMABLE => True
    | _ => False
    end.

(** *** The scenarios of the testable properties *)

(** [C] sums the outputs of [A] and [B]. *)
Definition plain_sum (ins : list Value) : Z :=
  foldr (λ v s, match v with Plain z => (z + s)%Z | Caught _ _ => s end) 0%Z ins.

Definition task_A : TaskNode := mk_TaskNode [] (λ _ _, Return 1%Z) true false 0.
Definition task_B : TaskNode := mk_TaskNode [] (λ _ _, Return 2%Z) true false 0.
Definition task_C : TaskNode :=
  mk_TaskNode [0; 1] (λ _ ins, Return (plain_sum ins)) true false 0.

(** A task that gives the time at which it runs. *)
Definition task_clock : TaskNode :=
  mk_TaskNode [] (λ c _, Return (Z.of_nat c)) true false 0.

(** A task that fails on its first two runs and then succeeds. *)
Definition task_flaky : TaskNode :=
  mk_TaskNode [] (λ c _, if Nat.ltb c 2 then Raise (RuntimeError "not yet") else Return 7%Z)
              true false 2.

(** A task without retries that fails when it runs at time 0 and succeeds
    later. *)
Definition task_late : TaskNode :=
  mk_TaskNode [] (λ c _, if Nat.ltb c 1 then Raise (RuntimeError "too early") else Return 5%Z)
              true false 0.

(** A task that always throws, with [catch_exceptions]. *)
Definition task_throws : TaskNode :=
  mk_TaskNode [] (λ _ _, Raise (RuntimeError "boom")) true true 0.
End execution.

(** ** A reference store

    The status query, the listing, cancellation and the deletion of persisted
    state live in [ray.workflow.execution] and
    [ray.workflow.workflow_storage], not in [api.py].  The store below keeps
    one status per workflow id and is what the general statements about
    [api.py] are instantiated with. *)
Module store.
(** Modelled from the spec: the status query fails with a
    [ValueError]-class error if the id is unknown; it reads only. *)
Definition get_status (workflow_id : string) (s : gmap string WorkflowStatus)
    : Result WorkflowStatus * gmap string WorkflowStatus :=
  match s !! workflow_id with
  | Some st => (Return st, s)
  | None => (Raise (ValueError "No such workflow_id"), s)
  end.

(** Modelled from the spec: the listing gives the known workflows whose
    status is in the filter. *)
Definition list_all (status_filter : gset WorkflowStatus) (s : gmap string WorkflowStatus)
    : Result (list (string * WorkflowStatus)) * gmap string WorkflowStatus :=
  (Return (filter (λ p, p.2 ∈ status_filter) (map_to_list s)), s).

(** Modelled from the spec: cancelling marks the status [CANCELED]. *)
Definition cancel (workflow_id : string) (s : gmap string WorkflowStatus)
    : Result unit * gmap string WorkflowStatus :=
  match s !! workflow_id with
  | Some _ => (Return (), <[workflow_id := CANCELED]> s)
  | None => (Raise (ValueError "No such workflow_id"), s)
  end.

(** Modelled from the spec: deletion removes everything persisted for the
    id. *)
Definition delete_workflow (workflow_id : pyval) (s : gmap string WorkflowStatus)
    : Result unit * gmap string WorkflowStatus :=
  match workflow_id with
  | PyStr id => (Return (), base.delete id s)
  | _ => (Raise (TypeError "workflow_id has to be a string type."), s)
  end.

(** A process in which nothing has been initialised yet. *)
Definition fresh (s : gmap string WorkflowStatus) : World (gmap string WorkflowStatus) :=
  mk_World false None false false false s [].
End store.

(** ** Predicates used to state the properties *)

(** The log entries a run of [m] from [w] added. *)
Definition new_calls {S A} (m : M S A) (w : World S) : list LogEntry :=
  drop (length (calls w)) (calls (m w).2).

(** [m] is guarded by the initialisation check: from any state of the
    process, the module and Ray are initialised once [m] is over, and every
    call [m] made to the engine was made in an initialised process. *)
Definition guarded {S A} (m : M S A) : Prop :=
  ∀ w, workflow_ready (m w).2 = true
       ∧ Forall (λ e, is_engine_call (entry_call e) = true → entry_ready e = true)
                (new_calls m w).

(** [m] made no call to the engine or its storage. *)
Definition no_engine_call {S A} (m : M S A) (w : World S) : Prop :=
  Forall (λ e, is_engine_call (entry_call e) = false) (new_calls m w).

(** [m] keeps an initialised process initialised and logs every call it
    makes as made in an initialised process. *)
Definition ready_step {S A} (m : M S A) : Prop :=
  ∀ w, workflow_ready w = true →
    workflow_ready (m w).2 = true
    ∧ ∃ new, calls (m w).2 = calls w ++ new ∧ Forall (λ e, entry_ready e = true) new.

(** [m] keeps an initialised process initialised, and the calls it makes
    are calls to the engine, made in an initialised process. *)
Definition engine_step {S A} (m : M S A) : Prop :=
  ∀ w, workflow_ready w = true →
    workflow_ready (m w).2 = true
    ∧ ∃ new, calls (m w).2 = calls w ++ new
             ∧ Forall (λ e, is_engine_call (entry_call e) = true ∧ entry_ready e = true) new.

(** ** Instances used to exercise the statements *)

(** A listener class deriving from [EventListener]. *)
Definition TimerListener_class : pyval :=
  PyClass "TimerListener" ["TimerListener"; "EventListener"; "object"].

(** A listener whose source is a counter: polling yields the count and
    advances it, acknowledging changes nothing. *)
Definition tick_poll (name : string) (args : list pyval) (kwargs : list (string * pyval))
    (src : nat) : Result pyval * nat :=
  (Return (PyInt (Z.of_nat src)), Datatypes.S src).

Definition tick_ack (name : string) (event : pyval) (src : nat) : Result unit * nat :=
  (Return (), src).

(** A status lookup whose storage is unreachable. *)
Definition unreachable_get_status (workflow_id : string) (s : gmap string WorkflowStatus)
    : Result WorkflowStatus * gmap string WorkflowStatus :=
  (Raise (RuntimeError "storage unreachable"), s).

(** An engine that starts a run by handing out a reference named after the
    workflow id, and a [ray.get] that gives back the reference it is
    given. *)
Definition echo_run (dag_node : DAGNode) (input_data : DAGInputData)
    (workflow_id metadata : pyval) (s : gmap string WorkflowStatus)
    : Result pyval * gmap string WorkflowStatus :=
  match workflow_id with
  | PyStr id => (Return (PyDict [("ref", workflow_id)]), <[id := RUNNING]> s)
  | _ => (Return (PyDict [("ref", workflow_id)]), s)
  end.

Definition echo_get (ref : pyval) (s : gmap string WorkflowStatus)
    : Result pyval * gmap string WorkflowStatus :=
  (Return ref, s).

Definition echo_execute (dag_node : DAGNode) (s : gmap string WorkflowStatus)
    : Result pyval * gmap string WorkflowStatus :=
  (Return (PyStr "executed"), s).

(** A graph of one task, as an object. *)
Definition one_task : DAGObject :=
  mk_DAGObject (FunctionNode (end_time (PyInt 0)) [] []) None None.

(** * Properties of [init] and of the initialisation check *)

Ltac unfold_init :=
  unfold api._ensure_workflow_initialized, api.init, api.record_library_usage,
    api.ray_init, api.init_management_actor, api.init_manager,
    api.set_is_workflow_initialized, workflow_ready, log, set_engine in *;
  unfold mbind, mret, M_bind, M_ret, raise, lift, try_except, invoke in *.

Section init_facts.
Context {S : Type}.
Implicit Types w : World S.

Lemma init_spec w :
  ∃ new,
    api.init w =
      (Return (), mk_World true (if ray_is_initialized w then ray_storage w
                                 else Some "file:///tmp/ray/workflow_data")
                           true true true (engine w) (calls w ++ new))
    ∧ Forall (λ e, is_engine_call (entry_call e) = false) new.
Proof.
  destruct w as [r st i a m s c]. destruct r; unfold_init; cbn.
  - eexists. rewrite <- !app_assoc. split; [reflexivity|]. repeat constructor.
  - eexists. rewrite <- !app_assoc. split; [reflexivity|]. repeat constructor.
Qed.

Lemma ensure_spec w :
  ∃ new,
    api._ensure_workflow_initialized w =
      (Return (), mk_World true (if ray_is_initialized w then ray_storage w
                                 else Some "file:///tmp/ray/workflow_data")
                           true
                           (if workflow_ready w then management_actor w else true)
                           (if workflow_ready w then serialization_manager w else true)
                           (engine w) (calls w ++ new))
    ∧ Forall (λ e, is_engine_call (entry_call e) = false) new
    ∧ (workflow_ready w = true → new = []).
Proof.
  destruct (workflow_ready w) eqn:Hr.
  - exists []. destruct w as [r st i a m s c]. unfold workflow_ready in Hr. cbn in Hr.
    apply andb_true_iff in Hr as [-> ->]. unfold_init; cbn. rewrite app_nil_r. done.
  - destruct (init_spec w) as (new & Hi & Hn). exists new.
    split; [|split; [done|done]].
    rewrite <- Hi. unfold api._ensure_workflow_initialized.
    unfold workflow_ready in Hr. apply andb_false_iff in Hr as [-> | ->]; cbn; [done|].
    by rewrite orb_true_r.
Qed.

(** The state of the process once the initialisation check is over. *)
Lemma ensure_engine w :
  (api._ensure_workflow_initialized w).1 = Return ()
  ∧ engine (api._ensure_workflow_initialized w).2 = engine w
  ∧ workflow_ready (api._ensure_workflow_initialized w).2 = true
  ∧ no_engine_call api._ensure_workflow_initialized w.
Proof.
  unfold no_engine_call, new_calls.
  destruct (ensure_spec w) as (new & -> & Hn & _). cbn.
  by rewrite drop_app_length.
Qed.

Lemma ensure_ready_id w :
  workflow_ready w = true → (api._ensure_workflow_initialized w).2 = w.
Proof.
  intros Hr. destruct (ensure_spec w) as (new & -> & _ & Hnil).
  rewrite (Hnil Hr). cbn. rewrite app_nil_r. destruct w; cbn in *.
  unfold workflow_ready in Hr. cbn in Hr. apply andb_true_iff in Hr as [-> ->].
  done.
Qed.

Lemma bind_run {A B} (m : M S A) (k : A → M S B) w :
  (m ≫= k) w = match m w with
               | (Return a, w') => k a w'
               | (Raise e, w') => (Raise e, w')
               end.
Proof. reflexivity. Qed.

Lemma bind_ensure_run {A} (k : M S A) w :
  (_ ← api._ensure_workflow_initialized; k) w
  = k (api._ensure_workflow_initialized w).2.
Proof.
  unfold mbind, M_bind. destruct (ensure_spec w) as (new & -> & _). done.
Qed.

Lemma new_calls_app {A} (m : M S A) w new :
  calls (m w).2 = calls w ++ new → new_calls m w = new.
Proof. unfold new_calls. intros ->. by rewrite drop_app_length. Qed.

(** *** Steps that keep the process initialised *)
Lemma ready_ret {A} (a : A) : ready_step (mret a : M S A).
Proof. intros w Hw. split; [done|]. exists []. by rewrite app_nil_r. Qed.

Lemma ready_raise {A} e : ready_step (raise e : M S A).
Proof. intros w Hw. split; [done|]. exists []. by rewrite app_nil_r. Qed.

Lemma ready_lift {A} (r : Result A) : ready_step (lift r : M S A).
Proof. intros w Hw. split; [done|]. exists []. by rewrite app_nil_r. Qed.

Lemma ready_invoke {A} c (f : S → Result A * S) : ready_step (invoke c f).
Proof.
  intros w Hw. unfold invoke. destruct (f (engine (log c w))) as [r s'] eqn:Hf.
  cbn. split.
  - destruct w; exact Hw.
  - exists [mk_entry c (workflow_ready w)]. split; [done|].
    rewrite Hw. by repeat constructor.
Qed.

Lemma ready_bind {A B} (m : M S A) (k : A → M S B) :
  ready_step m → (∀ a, ready_step (k a)) → ready_step (m ≫= k).
Proof.
  intros Hm Hk w Hw. destruct (Hm w Hw) as (Hr & new & Hc & Hn).
  rewrite bind_run. destruct (m w) as [[a|e] w1] eqn:Hmw; cbn in *.
  - destruct (Hk a w1 Hr) as (Hr2 & new2 & Hc2 & Hn2). split; [done|].
    exists (new ++ new2). rewrite Hc2, Hc, app_assoc. split; [done|].
    by apply Forall_app.
  - split; [done|]. by exists new.
Qed.

Lemma ready_try {A} (body handler : M S A) cls :
  ready_step body → ready_step handler → ready_step (try_except body cls handler).
Proof.
  intros Hb Hh w Hw. destruct (Hb w Hw) as (Hr & new & Hc & Hn).
  unfold try_except. destruct (body w) as [[a|e] w1] eqn:Hbw; cbn in *.
  - split; [done|]. by exists new.
  - destruct (isinstance_exn e cls); cbn.
    + destruct (Hh w1 Hr) as (Hr2 & new2 & Hc2 & Hn2). split; [done|].
      exists (new ++ new2). rewrite Hc2, Hc, app_assoc. split; [done|].
      by apply Forall_app.
    + split; [done|]. by exists new.
Qed.

Lemma ready_ensure : ready_step (api._ensure_workflow_initialized (S:=S)).
Proof.
  intros w Hw. rewrite (ensure_ready_id w Hw). split; [done|].
  exists []. by rewrite app_nil_r.
Qed.

Lemma guarded_ensure_bind {A} (k : M S A) :
  ready_step k → guarded (_ ← api._ensure_workflow_initialized; k).
Proof.
  intros Hk w. unfold new_calls. rewrite bind_ensure_run.
  destruct (ensure_spec w) as (new & -> & Hn & _). cbn [snd].
  match goal with |- context [k ?x] => set (w1 := x) end.
  destruct (Hk w1 eq_refl) as (Hr & new2 & Hc & Hn2).
  split; [done|]. rewrite Hc. subst w1. cbn [calls].
  rewrite <- app_assoc, drop_app_length.
  apply Forall_app. split.
  - eapply Forall_impl; [exact Hn|]. cbn. intros e -> ?. done.
  - eapply Forall_impl; [exact Hn2|]. cbn. by intros e -> _.
Qed.

(** C5: [init] never raises, and a second [init] leaves the process as the
    first one left it: Ray, the module flag, the management actor, the
    serialization manager and the engine's state are unchanged (only the
    ghost log of calls grows). *)
Theorem init_idempotent w :
  (api.init w).1 = Return ()
  ∧ (api.init (api.init w).2).1 = Return ()
  ∧ observable (api.init (api.init w).2).2 = observable (api.init w).2
  ∧ workflow_ready (api.init w).2 = true.
Proof.
  destruct (init_spec w) as (new & -> & _). cbn [fst snd].
  match goal with |- context [api.init ?x] => destruct (init_spec x) as (new2 & -> & _) end.
  done.
Qed.
End init_facts.

(** * Properties of the entry points *)

Lemma all_but_NONE :
  list_to_set WorkflowStatus_members ∖ {[NONE]}
  = (list_to_set [RUNNING; SUCCESSFUL; FAILED; CANCELED; RESUMABLE] : gset WorkflowStatus).
Proof. apply set_eq. intros []; set_solver. Qed.

Lemma WorkflowStatus_of_string_value st :
  WorkflowStatus_of_string (WorkflowStatus_value st) = Return st.
Proof. by destruct st. Qed.

Lemma WorkflowStatus_of_string_invalid s :
  (∀ st, WorkflowStatus_value st ≠ s) →
  WorkflowStatus_of_string s = Raise (ValueError (s +:+ " is not a valid WorkflowStatus")).
Proof.
  intros Hs. unfold WorkflowStatus_of_string.
  destruct (list_find _ _) as [[i m]|] eqn:Hf; [|done].
  apply list_find_Some in Hf as (_ & Hm & _). by destruct (Hs m).
Qed.

Lemma WorkflowStatus_of_string_raises s e :
  WorkflowStatus_of_string s = Raise e → exn_class e = "ValueError".
Proof.
  unfold WorkflowStatus_of_string.
  destruct (list_find _ _) as [[? ?]|]; [done|]. by intros [= <-].
Qed.

Lemma statuses_of_strings_app l1 l2 :
  api.statuses_of_strings (l1 ++ l2)
  = match api.statuses_of_strings l1 with
    | Return a =>
        match api.statuses_of_strings l2 with
        | Return b => Return (a ∪ b)
        | Raise e => Raise e
        end
    | Raise e => Raise e
    end.
Proof.
  induction l1 as [|x l1 IH]; cbn.
  - destruct (api.statuses_of_strings l2); [|done]. by rewrite (left_id_L ∅ (∪)).
  - destruct (WorkflowStatus_call x); [|done]. rewrite IH.
    destruct (api.statuses_of_strings l1); [|done].
    destruct (api.statuses_of_strings l2); [|done]. by rewrite (assoc_L (∪)).
Qed.

Lemma statuses_of_strings_values sts :
  api.statuses_of_strings ((PyStr ∘ WorkflowStatus_value) <$> sts)
  = Return (list_to_set sts).
Proof.
  induction sts as [|st sts IH]; [done|].
  cbn. rewrite WorkflowStatus_of_string_value.
  change (api.statuses_of_strings _) with
    (api.statuses_of_strings ((PyStr ∘ WorkflowStatus_value) <$> sts)).
  by rewrite IH.
Qed.

Lemma statuses_of_strings_statuses sts :
  api.statuses_of_strings (PyStatus <$> sts) = Return (list_to_set sts).
Proof.
  induction sts as [|st sts IH]; [done|]. cbn.
  change (api.statuses_of_strings _) with (api.statuses_of_strings (PyStatus <$> sts)).
  by rewrite IH.
Qed.

Lemma statuses_of_set_statuses sts :
  api.statuses_of_set (PyStatus <$> sts) = list_to_set sts.
Proof. induction sts as [|st sts IH]; [done|]. cbn. by rewrite IH. Qed.

Section api_facts.
Context {S : Type}.
Variable execution_resume : pyval → S → Result pyval * S.
Variable execution_get_output : pyval → pyval → S → Result pyval * S.
Variable execution_list_all :
  gset WorkflowStatus → S → Result (list (string * WorkflowStatus)) * S.
Variable execution_resume_all : pyval → S → Result pyval * S.
Variable execution_get_status : string → S → Result WorkflowStatus * S.
Variable execution_get_metadata : pyval → pyval → S → Result pyval * S.
Variable execution_cancel : string → S → Result unit * S.
Variable delete_workflow : pyval → S → Result unit * S.
Variable WorkflowStatus_is_str : bool.
Implicit Types w : World S.

Local Notation resume := (api.resume execution_resume).
Local Notation get_output := (api.get_output execution_get_output).
Local Notation list_all := (api.list_all execution_list_all WorkflowStatus_is_str).
Local Notation resume_all := (api.resume_all execution_resume_all).
Local Notation get_status := (api.get_status execution_get_status WorkflowStatus_is_str).
Local Notation get_metadata := (api.get_metadata execution_get_metadata).
Local Notation cancel := (api.cancel execution_cancel WorkflowStatus_is_str).
Local Notation delete :=
  (api.delete execution_get_status delete_workflow WorkflowStatus_is_str).
Local Notation ensure := api._ensure_workflow_initialized.
Local Notation isinstance_str := (api.isinstance_str WorkflowStatus_is_str).
Local Notation other_argument := (api.other_argument WorkflowStatus_is_str).

Lemma forallb_isinstance_str_strings sts :
  forallb isinstance_str ((PyStr ∘ WorkflowStatus_value) <$> sts) = true.
Proof. induction sts; [done|]. by cbn. Qed.

Lemma forallb_isinstance_WorkflowStatus_statuses sts :
  forallb api.isinstance_WorkflowStatus (PyStatus <$> sts) = true.
Proof. induction sts; [done|]. by cbn. Qed.

Lemma forallb_isinstance_str_statuses sts :
  forallb isinstance_str (PyStatus <$> sts)
  = match sts with [] => true | _ :: _ => WorkflowStatus_is_str end.
Proof.
  induction sts as [|st sts IH]; [done|]. cbn -[api.isinstance_str].
  change (forallb _ _) with (forallb isinstance_str (PyStatus <$> sts)).
  rewrite IH. unfold api.isinstance_str. cbn.
  destruct WorkflowStatus_is_str, sts; done.
Qed.

Lemma statuses_of_strings_invalid elems s :
  forallb isinstance_str elems = true →
  PyStr s ∈ elems →
  (∀ st, WorkflowStatus_value st ≠ s) →
  ∃ e, api.statuses_of_strings elems = Raise e ∧ exn_class e = "ValueError".
Proof.
  induction elems as [|x elems IH]; intros Hall Hin Hs.
  - by apply elem_of_nil in Hin.
  - cbn in Hall. apply andb_true_iff in Hall as [Hx Hall].
    cbn. destruct (WorkflowStatus_call x) as [st|e] eqn:Hw.
    + apply elem_of_cons in Hin as [<-|Hin].
      * cbn in Hw. rewrite WorkflowStatus_of_string_invalid in Hw; done.
      * destruct (IH Hall Hin Hs) as (e & -> & He). by exists e.
    + exists e. split; [done|]. destruct x; try by injection Hw as <-.
      * by eapply WorkflowStatus_of_string_raises.
      * done.
Qed.

Lemma ready_get_status workflow_id : ready_step (get_status workflow_id).
Proof.
  apply ready_bind; [apply ready_ensure|]. intros _.
  destruct (api.as_str _ _); auto using ready_raise, ready_invoke.
Qed.

(** C6 (amended): each of [resume], [get_output], [list_all],
    [resume_all], [get_status], [get_metadata], [cancel] and [delete] is
    guarded: whatever the state of the process and whatever the arguments,
    the module and Ray are initialised when the call is over, and every
    call it made to the engine was made in an initialised process. *)
Theorem entry_points_guarded (workflow_id name status_filter include_failed : pyval) :
  guarded (resume workflow_id)
  ∧ guarded (get_output workflow_id name)
  ∧ guarded (list_all status_filter)
  ∧ guarded (resume_all include_failed)
  ∧ guarded (get_status workflow_id)
  ∧ guarded (get_metadata workflow_id name)
  ∧ guarded (cancel workflow_id)
  ∧ guarded (delete workflow_id).
Proof.
  repeat apply conj; apply guarded_ensure_bind.
  - apply ready_invoke.
  - apply ready_invoke.
  - apply ready_bind; [|intros; apply ready_invoke].
    destruct (isinstance_str status_filter).
    + apply ready_bind; [apply ready_lift|]. intros. apply ready_ret.
    + destruct status_filter; try apply ready_raise; try apply ready_ret.
      repeat case_match; auto using ready_raise, ready_ret, ready_lift.
  - apply ready_invoke.
  - destruct (api.as_str _ _); auto using ready_raise, ready_invoke.
  - apply ready_invoke.
  - destruct (api.as_str _ _); auto using ready_raise, ready_invoke.
  - apply ready_bind; [|intros; apply ready_invoke].
    apply ready_try; [|apply ready_raise].
    apply ready_bind; [apply ready_get_status|].
    intros st. case_bool_decide; auto using ready_raise, ready_ret.
Qed.

(** C10: for an argument that is not an instance of [str], [get_status]
    and [cancel] raise [TypeError] right after the initialisation check:
    the engine's state is as it was and no call was made to the engine. *)
Theorem non_string_id_rejected (workflow_id : pyval) w :
  isinstance_str workflow_id = false →
  get_status workflow_id w
    = (Raise (TypeError "workflow_id has to be a string type."), (ensure w).2)
  ∧ cancel workflow_id w
    = (Raise (TypeError "workflow_id has to be a string type."), (ensure w).2)
  ∧ engine (get_status workflow_id w).2 = engine w
  ∧ engine (cancel workflow_id w).2 = engine w
  ∧ no_engine_call (get_status workflow_id) w
  ∧ no_engine_call (cancel workflow_id) w.
Proof.
  intros Hv. unfold api.isinstance_str in Hv.
  assert (Hg : get_status workflow_id w
               = (Raise (TypeError "workflow_id has to be a string type."), (ensure w).2)).
  { unfold api.get_status. rewrite bind_ensure_run.
    by destruct (api.as_str _ _). }
  assert (Hc : cancel workflow_id w
               = (Raise (TypeError "workflow_id has to be a string type."), (ensure w).2)).
  { unfold api.cancel. rewrite bind_ensure_run.
    by destruct (api.as_str _ _). }
  destruct (ensure_engine w) as (_ & He & _ & Hn).
  unfold no_engine_call, new_calls in *. rewrite Hg, Hc. done.
Qed.

(** What [delete] does up to the end of its [try] block. *)
Lemma delete_run (id : string) w :
  delete (PyStr id) w =
    let w1 := log (Call_execution_get_status id) (ensure w).2 in
    match execution_get_status id (engine w) with
    | (Return st, s') =>
        if bool_decide (st = RUNNING)
        then (Raise (WorkflowRunningError "DELETE" (PyStr id)), set_engine s' w1)
        else invoke (Call_delete_workflow (PyStr id)) (delete_workflow (PyStr id))
                    (set_engine s' w1)
    | (Raise e, s') =>
        if isinstance_exn e "ValueError"
        then (Raise (WorkflowNotFoundError (PyStr id)), set_engine s' w1)
        else (Raise e, set_engine s' w1)
    end.
Proof.
  unfold api.delete. rewrite bind_ensure_run.
  destruct (ensure_engine w) as (_ & He & Hr & _).
  set (w0 := (ensure w).2) in *.
  rewrite bind_run. unfold try_except. rewrite bind_run.
  unfold api.get_status. rewrite bind_ensure_run, (ensure_ready_id w0 Hr).
  unfold invoke. cbn [api.as_str engine log]. rewrite He.
  destruct (execution_get_status id (engine w)) as [[st|e] s']; cbn.
  - case_bool_decide; cbn; done.
  - by destruct (isinstance_exn e "ValueError").
Qed.

Lemma new_calls_ensure_log {A} (m : M S A) w c s' :
  calls (m w).2 = calls (set_engine s' (log c (ensure w).2)) →
  new_calls m w = new_calls ensure w ++ [mk_entry c true].
Proof.
  intros Hc. unfold new_calls. rewrite Hc. cbn.
  destruct (ensure_spec w) as (new & -> & _). cbn.
  by rewrite <- app_assoc, !drop_app_length.
Qed.

Lemma no_delete_call w id :
  Forall (λ e, ∀ x, entry_call e ≠ Call_delete_workflow x)
         (new_calls ensure w ++ [mk_entry (Call_execution_get_status id) true]).
Proof.
  apply Forall_app. split.
  - destruct (ensure_engine w) as (_ & _ & _ & Hne).
    eapply Forall_impl; [exact Hne|]. cbn. intros e He x Hx. by rewrite Hx in He.
  - repeat constructor. cbn. done.
Qed.

(** C2: when the status lookup of [workflow_id] answers [RUNNING],
    [delete] raises [WorkflowRunningError]; the engine's state is the one
    the status lookup left, the only call made to the engine is that
    lookup, and the deletion of the storage is not called. *)
Theorem delete_running (id : string) w :
  (execution_get_status id (engine w)).1 = Return RUNNING →
  (delete (PyStr id) w).1 = Raise (WorkflowRunningError "DELETE" (PyStr id))
  ∧ engine (delete (PyStr id) w).2 = (execution_get_status id (engine w)).2
  ∧ new_calls (delete (PyStr id)) w
    = new_calls ensure w ++ [mk_entry (Call_execution_get_status id) true]
  ∧ Forall (λ e, ∀ x, entry_call e ≠ Call_delete_workflow x)
           (new_calls (delete (PyStr id)) w).
Proof.
  intros Hst.
  assert (Hd := delete_run id w). cbn zeta in Hd.
  destruct (execution_get_status id (engine w)) as [r s'] eqn:Hq.
  cbn in Hst. subst r. rewrite bool_decide_eq_true_2 in Hd by done.
  assert (Hn : new_calls (delete (PyStr id)) w
               = new_calls ensure w ++ [mk_entry (Call_execution_get_status id) true]).
  { eapply new_calls_ensure_log. by rewrite Hd. }
  rewrite Hn, Hd. cbn [fst snd]. repeat apply conj; try done.
  apply no_delete_call.
Qed.

(** C9: when the status lookup of [workflow_id] fails with an error of
    class [ValueError], [get_status] fails with that error and [delete]
    raises [WorkflowNotFoundError], without calling the deletion of the
    storage. *)
Theorem delete_unknown (id : string) w e :
  (execution_get_status id (engine w)).1 = Raise e →
  isinstance_exn e "ValueError" = true →
  (get_status (PyStr id) w).1 = Raise e
  ∧ (delete (PyStr id) w).1 = Raise (WorkflowNotFoundError (PyStr id))
  ∧ engine (delete (PyStr id) w).2 = (execution_get_status id (engine w)).2
  ∧ Forall (λ e, ∀ x, entry_call e ≠ Call_delete_workflow x)
           (new_calls (delete (PyStr id)) w).
Proof.
  intros Hst Hve.
  assert (Hd := delete_run id w). cbn zeta in Hd.
  assert (Hg : (get_status (PyStr id) w).1 = Raise e).
  { unfold api.get_status. rewrite bind_ensure_run. unfold invoke.
    cbn [api.as_str engine log].
    destruct (ensure_engine w) as (_ & -> & _).
    destruct (execution_get_status id (engine w)) as [r s']. cbn in *. done. }
  destruct (execution_get_status id (engine w)) as [r s'] eqn:Hq.
  cbn in Hst. subst r. rewrite Hve in Hd.
  assert (Hn : new_calls (delete (PyStr id)) w
               = new_calls ensure w ++ [mk_entry (Call_execution_get_status id) true]).
  { eapply new_calls_ensure_log. by rewrite Hd. }
  rewrite Hn, Hd. cbn [fst snd]. repeat apply conj; try done.
  apply no_delete_call.
Qed.

(** C3 (amended): after the initialisation check, [list_all] calls the
    engine with a set of statuses obtained as follows: [None] gives all
    statuses but [NONE]; a string that is the value of a status, or a
    status, gives the singleton; a set of such strings, or of statuses,
    gives the set of the statuses.  A string that is the value of no
    status, alone or in a set of strings, makes [list_all] raise
    [ValueError]; any other argument makes it raise [TypeError]; in both
    cases the engine is not called.  A set mixing strings and statuses is
    such an other argument when [WorkflowStatus] does not derive from
    [str], and is converted like a set of strings when it does. *)
Theorem list_all_normalizes w :
  let core := λ f, invoke (Call_execution_list_all f) (execution_list_all f) (ensure w).2 in
  list_all PyNone w = core (list_to_set [RUNNING; SUCCESSFUL; FAILED; CANCELED; RESUMABLE])
  ∧ (∀ st, list_all (PyStr (WorkflowStatus_value st)) w = core {[st]})
  ∧ (∀ st, list_all (PyStatus st) w = core {[st]})
  ∧ (∀ sts, list_all (PySet ((PyStr ∘ WorkflowStatus_value) <$> sts)) w
            = core (list_to_set sts))
  ∧ (∀ sts, list_all (PySet (PyStatus <$> sts)) w = core (list_to_set sts))
  ∧ (∀ s, (∀ st, WorkflowStatus_value st ≠ s) →
       list_all (PyStr s) w
       = (Raise (ValueError (s +:+ " is not a valid WorkflowStatus")), (ensure w).2))
  ∧ (∀ elems s,
       forallb isinstance_str elems = true → PyStr s ∈ elems →
       (∀ st, WorkflowStatus_value st ≠ s) →
       ∃ e, list_all (PySet elems) w = (Raise e, (ensure w).2)
            ∧ exn_class e = "ValueError")
  ∧ (∀ v, other_argument v = true →
       ∃ e, list_all v w = (Raise e, (ensure w).2) ∧ exn_class e = "TypeError")
  ∧ (WorkflowStatus_is_str = false →
     ∀ elems s st, PyStr s ∈ elems → PyStatus st ∈ elems →
       other_argument (PySet elems) = true)
  ∧ (WorkflowStatus_is_str = true →
     ∀ sts1 sts2,
       list_all (PySet (((PyStr ∘ WorkflowStatus_value) <$> sts1) ++ (PyStatus <$> sts2))) w
       = core (list_to_set (sts1 ++ sts2))).
Proof.
  intros core. subst core. cbn beta.
  repeat apply conj; intros; unfold api.list_all; try rewrite bind_ensure_run, bind_run.
  - change (isinstance_str PyNone) with false. cbn match.
    unfold mret, M_ret. by rewrite all_but_NONE.
  - cbn. rewrite bind_run. unfold lift. cbn. by rewrite WorkflowStatus_of_string_value.
  - unfold api.isinstance_str. cbn. destruct WorkflowStatus_is_str; [|done].
    rewrite bind_run. done.
  - change (isinstance_str (PySet _)) with false. cbn match.
    rewrite forallb_isinstance_str_strings.
    unfold lift. by rewrite statuses_of_strings_values.
  - change (isinstance_str (PySet _)) with false. cbn match.
    rewrite forallb_isinstance_str_statuses.
    destruct sts as [|st sts]; [done|].
    destruct WorkflowStatus_is_str.
    + unfold lift. by rewrite statuses_of_strings_statuses.
    + rewrite forallb_isinstance_WorkflowStatus_statuses.
      cbn [negb]. unfold mret, M_ret.
      by rewrite (statuses_of_set_statuses (st :: sts)).
  - cbn. rewrite bind_run. unfold lift. cbn. by rewrite WorkflowStatus_of_string_invalid.
  - change (isinstance_str (PySet _)) with false. cbn match.
    rewrite H. unfold lift.
    destruct (statuses_of_strings_invalid elems s) as (e & -> & He); try done.
    by exists e.
  - unfold api.other_argument in H. apply andb_true_iff in H as [H1 H2].
    apply negb_true_iff in H1. rewrite H1.
    destruct v; try done; try (eexists; split; [reflexivity|done]).
    apply andb_true_iff in H2 as [H2 H3].
    apply negb_true_iff in H2. rewrite H2, H3.
    eexists; split; [reflexivity|done].
  - unfold api.other_argument. change (isinstance_str (PySet _)) with false.
    cbn. apply andb_true_iff. split; apply negb_true_iff.
    + apply not_true_is_false. intros Hall.
      rewrite forallb_forall in Hall.
      apply list_elem_of_In, Hall in H1. unfold api.isinstance_str in H1. cbn in H1.
      by rewrite H in H1.
    + apply not_true_is_false. intros Hall.
      rewrite forallb_forall in Hall.
      by apply list_elem_of_In, Hall in H0.
  - change (isinstance_str (PySet _)) with false. cbn match.
    rewrite forallb_app, forallb_isinstance_str_strings, forallb_isinstance_str_statuses.
    assert (match sts2 with [] => true | _ :: _ => WorkflowStatus_is_str end = true) as ->
      by (destruct sts2; done).
    cbn. unfold lift.
    rewrite statuses_of_strings_app, statuses_of_strings_values,
      statuses_of_strings_statuses.
    by rewrite list_to_set_app_L.
Qed.
End api_facts.

(** * Properties of [options] *)

Section options_facts.
Variable WORKFLOW_OPTIONS : string.
Variable validate_user_metadata : pyval → Result unit.

Local Notation options_init := (api.options_init WORKFLOW_OPTIONS validate_user_metadata).

Lemma invalid_keywords_nil (keys : list string) :
  filter (λ k, k ∉ api.valid_options) keys = [] ↔ ∀ k, k ∈ keys → k ∈ api.valid_options.
Proof.
  split.
  - intros Hf k Hk. destruct (decide (k ∈ api.valid_options)) as [|Hn]; [done|].
    assert (k ∈ filter (λ k, k ∉ api.valid_options) keys) as Hin
      by by apply list_elem_of_filter.
    rewrite Hf in Hin. by apply elem_of_nil in Hin.
  - intros Hall. induction keys as [|k keys IH]; [done|].
    rewrite filter_cons. destruct (decide (k ∉ api.valid_options)) as [Hn|_].
    + destruct Hn. apply Hall. by left.
    + apply IH. intros k' Hk'. apply Hall. by right.
Qed.

(** C7 (amended): with a keyword outside the valid set, constructing
    [options] raises [ValueError]; with valid keywords only, it returns
    the options stored under ["_metadata"] when [validate_user_metadata]
    accepts the metadata, and raises the error of [validate_user_metadata]
    otherwise. *)
Theorem options_init_keywords (workflow_options : list (string * pyval)) :
  ((∃ k, k ∈ workflow_options.*1 ∧ k ∉ api.valid_options) →
     options_init workflow_options
     = Raise (ValueError "Invalid option keywords for workflow steps."))
  ∧ ((∀ k, k ∈ workflow_options.*1 → k ∈ api.valid_options) →
     validate_user_metadata (dict_get workflow_options "metadata") = Return () →
     options_init workflow_options
     = Return (api.mk_options
         {[ "_metadata" := PyDict [(WORKFLOW_OPTIONS, PyDict workflow_options)] ]}))
  ∧ ((∀ k, k ∈ workflow_options.*1 → k ∈ api.valid_options) →
     ∀ e, validate_user_metadata (dict_get workflow_options "metadata") = Raise e →
     options_init workflow_options = Raise e).
Proof.
  unfold api.options_init. repeat apply conj.
  - intros (k & Hk & Hn). rewrite bool_decide_eq_false_2; [done|].
    intros Hf. apply Hn. by apply (invalid_keywords_nil (workflow_options.*1)).
  - intros Hall ->. rewrite bool_decide_eq_true_2; [done|].
    by apply invalid_keywords_nil.
  - intros Hall e ->. rewrite bool_decide_eq_true_2; [done|].
    by apply invalid_keywords_nil.
Qed.

(** C8 (amended): applied to a reference to a remote function, an
    [options] instance returns that same reference and updates the
    [_default_options] of the function in place: the entries of the
    instance are added, replacing entries with the same key, and no other
    object changes; applied to anything else it raises [ValueError] and
    changes nothing. *)
Theorem options_call_updates (self : api.options) (f : pyval) (heap : gmap nat PyObject) :
  (∀ addr _default_options,
     f = PyRef addr → heap !! addr = Some (RemoteFunction _default_options) →
     api.options_call self f heap
     = (Return f, <[addr := RemoteFunction (api.options_dict self ∪ _default_options)]> heap)
     ∧ (∀ key, (api.options_dict self ∪ _default_options) !! key
               = match api.options_dict self !! key with
                 | Some v => Some v
                 | None => _default_options !! key
                 end)
     ∧ (∀ other, other ≠ addr → (api.options_call self f heap).2 !! other = heap !! other))
  ∧ ((∀ addr _default_options,
        f = PyRef addr → heap !! addr ≠ Some (RemoteFunction _default_options)) →
     api.options_call self f heap
     = (Raise (ValueError "Only apply 'workflow.options' to Ray remote functions."), heap)).
Proof.
  split.
  - intros addr opts -> Hh. unfold api.options_call. rewrite Hh. cbn.
    repeat apply conj; [done| |].
    + intros key. rewrite lookup_union. by destruct (_ !! key), (opts !! key).
    + intros other Ho. by rewrite lookup_insert_ne.
  - intros Hn. unfold api.options_call. destruct f; try done.
    destruct (heap !! addr) as [[opts|]|] eqn:Hh; try done.
    by destruct (Hn addr opts).
Qed.
End options_facts.

(** * Properties of the event bridge *)

Section bridge_facts.
Context {S Src : Type}.
Variable poll_for_event :
  string → list pyval → list (string * pyval) → Src → Result pyval * Src.
Variable event_checkpointed : string → pyval → Src → Result unit * Src.
Variable time_plus : Src → pyval → pyval.

Local Notation exec_node := (bridge.exec_node poll_for_event event_checkpointed time_plus).
Local Notation resolve_args := (bridge.resolve_args exec_node).
Local Notation resolve_kwargs := (bridge.resolve_kwargs exec_node).

Lemma exec_node_unfold body args kwargs st :
  exec_node (FunctionNode body args kwargs) st =
    match resolve_args args st with
    | (Return vs, st1) =>
        match resolve_kwargs kwargs st1 with
        | (Return kvs, st2) =>
            match bridge.run_task poll_for_event event_checkpointed time_plus
                    body vs kvs st2 with
            | (Return out, st3) =>
                (Return out, bridge.record_step (Checkpointed body out) st3)
            | (Raise e, st3) => (Raise e, st3)
            end
        | (Raise e, st2) => (Raise e, st2)
        end
    | (Raise e, st1) => (Raise e, st1)
    end.
Proof. reflexivity. Qed.

(** C4: for a class deriving from [EventListener], [wait_for_event]
    returns a graph of two tasks on top of the caller's arguments:
    [message_committed], whose second argument is the node of
    [get_message].  Run by the engine, the graph polls the listener, the
    polled event is checkpointed, and only then is the listener told so;
    the output of the graph is the polled event.  If polling raises,
    nothing is acknowledged.  For anything that is not a class deriving
    from [EventListener], [wait_for_event] raises [TypeError]. *)
Theorem wait_for_event_two_tasks (event_listener_type : pyval)
    (args : list (DAGArg DAGNode)) (kwargs : list (string * DAGArg DAGNode))
    (w : World S) :
  (∀ name mro, event_listener_type = PyClass name mro → "EventListener" ∈ mro →
     let poll := FunctionNode get_message (ArgValue event_listener_type :: args) kwargs in
     let dag := FunctionNode message_committed
                  [ArgValue event_listener_type; ArgNode poll] [] in
     api.wait_for_event event_listener_type args kwargs w = (Return dag, w)
     ∧ bridge.dag_size dag = 2 + bridge.upstream_size args kwargs
     ∧ ∀ st vs kvs st1 st2,
         resolve_args args st = (Return vs, st1) →
         resolve_kwargs kwargs st1 = (Return kvs, st2) →
         match poll_for_event name vs kvs (source st2) with
         | (Raise e, src) => exec_node dag st = (Raise e, mk_ExecState src (steps st2))
         | (Return event, src) =>
             match event_checkpointed name event src with
             | (Raise e, src') =>
                 exec_node dag st
                 = (Raise e,
                    mk_ExecState src'
                      (steps st2 ++ [Polled name event; Checkpointed get_message event]))
             | (Return _, src') =>
                 exec_node dag st
                 = (Return event,
                    mk_ExecState src'
                      (steps st2 ++ [Polled name event; Checkpointed get_message event;
                                     Acknowledged name event;
                                     Checkpointed message_committed event]))
             end
         end)
  ∧ ((∀ name mro, event_listener_type = PyClass name mro → "EventListener" ∉ mro) →
     ∃ e, api.wait_for_event event_listener_type args kwargs w = (Raise e, w)
          ∧ exn_class e = "TypeError").
Proof.
  split.
  - intros name mro -> Hmro poll dag. repeat apply conj.
    + unfold api.wait_for_event. rewrite bind_run. cbn.
      by rewrite bool_decide_eq_true_2.
    + subst dag poll. unfold bridge.upstream_size. cbn. unfold list_sum. lia.
    + intros st vs kvs st1 st2 Hargs Hkw. subst dag.
      rewrite exec_node_unfold.
      assert (Hpoll : exec_node poll st =
                match poll_for_event name vs kvs (source st2) with
                | (Return event, src) =>
                    (Return event,
                     mk_ExecState src
                       (steps st2 ++ [Polled name event; Checkpointed get_message event]))
                | (Raise e, src) => (Raise e, mk_ExecState src (steps st2))
                end).
      { subst poll. rewrite exec_node_unfold.
        cbn [bridge.resolve_args]. rewrite Hargs, Hkw. cbn.
        destruct (poll_for_event name vs kvs (source st2)) as [[ev|e] src]; [|done].
        unfold bridge.record_step. cbn. by rewrite <- app_assoc. }
      cbn [bridge.resolve_args]. rewrite Hpoll.
      destruct (poll_for_event name vs kvs (source st2)) as [[ev|e] src]; [|done].
      cbn. destruct (event_checkpointed name ev src) as [[[]|e] src']; [|done].
      unfold bridge.record_step. cbn. by rewrite <- !app_assoc.
  - intros Hn. unfold api.wait_for_event. rewrite bind_run.
    destruct event_listener_type; try (eexists; split; [reflexivity|done]).
    cbn. rewrite bool_decide_eq_false_2 by by eapply Hn.
    eexists; split; [reflexivity|done].
Qed.
End bridge_facts.

(** * Properties of the checkpoint and resume engine *)

Section engine_facts.
Import execution.

(** *** What the executor does to the store and to the history *)

Lemma dispatched_step i rt rt1 rt' :
  store rt1 = store rt → events rt1 = events rt ++ [Executed i] →
  (budget rt = None → budget rt1 = None) →
  ∀ least, dispatched i least rt1 rt' → dispatched i (Datatypes.S least) rt rt'.
Proof.
  intros Hs He Hb least (H1 & (k & H2) & Hb'). split; [by rewrite H1|]. split.
  - exists k. rewrite H2, He, <- app_assoc. done.
  - intros Hn. by apply Hb', Hb.
Qed.

Lemma dispatch_frame i t ins retries_left :
  ∀ retry_count rt,
    match dispatch i t ins retries_left retry_count rt with
    | Done _ rt' | Fail _ _ rt' => dispatched i 1 rt rt'
    | Crash rt' => dispatched i 0 rt rt' ∧ budget rt ≠ None
    end.
Proof.
  assert (Hone : ∀ rt b,
    pred <$> budget rt = b →
    dispatched i 1 rt
      (mk_Runtime b (Datatypes.S (clock rt)) (store rt) (events rt ++ [Executed i]))).
  { intros rt b <-. split; [done|]. split; [by exists 0|]. cbn. by intros ->. }
  assert (Hzero : ∀ rt, dispatched i 0 rt rt).
  { intros rt. split; [done|]. split; [|done]. exists 0. by rewrite app_nil_r. }
  induction retries_left as [|n IH]; intros retry_count rt; cbn [dispatch].
  - destruct (budget rt) as [[|b]|] eqn:Hb.
    + split; [apply Hzero|done].
    + destruct (operation t (clock rt) ins); [|destruct (catch_exceptions t)];
        apply Hone; by f_equal.
    + destruct (operation t (clock rt) ins); [|destruct (catch_exceptions t)];
        apply Hone; by f_equal.
  - assert (Hrec : ∀ rt1,
      store rt1 = store rt → events rt1 = events rt ++ [Executed i] →
      (budget rt = None → budget rt1 = None) →
      match dispatch i t ins n (Datatypes.S retry_count) rt1 with
      | Done _ rt' | Fail _ _ rt' => dispatched i 1 rt rt'
      | Crash rt' => dispatched i 0 rt rt' ∧ budget rt ≠ None
      end).
    { intros rt1 Hs He Hbud. specialize (IH (Datatypes.S retry_count) rt1).
      destruct (dispatch i t ins n (Datatypes.S retry_count) rt1) as [[v m] rt'|rt'|j e rt'].
      - destruct (dispatched_step i rt rt1 rt' Hs He Hbud 1 IH) as (H1 & (k & H2) & H3).
        split; [done|]. split; [|done]. exists (Datatypes.S k). by rewrite H2.
      - destruct IH as [IH Hne]. split.
        + destruct (dispatched_step i rt rt1 rt' Hs He Hbud 0 IH) as (H1 & (k & H2) & H3).
          split; [done|]. split; [|done]. exists (Datatypes.S k). by rewrite H2.
        + intros Hnone. by apply Hne, Hbud.
      - destruct (dispatched_step i rt rt1 rt' Hs He Hbud 1 IH) as (H1 & (k & H2) & H3).
        split; [done|]. split; [|done]. exists (Datatypes.S k). by rewrite H2. }
    destruct (budget rt) as [[|b]|] eqn:Hb.
    + split; [apply Hzero|done].
    + destruct (operation t (clock rt) ins); [|destruct (catch_exceptions t)];
        try (apply Hone; by f_equal).
      apply Hrec; cbn; done.
    + destruct (operation t (clock rt) ins); [|destruct (catch_exceptions t)];
        try (apply Hone; by f_equal).
      apply Hrec; cbn; done.
Qed.

Lemma execute_frame i t ins rt :
  match execute i t ins rt with
  | Done v rt' =>
      (budget rt = None → budget rt' = None)
      ∧ ∃ k, if checkpoint t
             then ∃ n, store rt' = <[i := (v, n)]> (store rt)
                       ∧ events rt'
                         = events rt ++ replicate (Datatypes.S k) (Executed i) ++ [Committed i]
             else store rt' = store rt
                  ∧ events rt' = events rt ++ replicate (Datatypes.S k) (Executed i)
  | Crash rt' =>
      store rt' = store rt
      ∧ (∃ k, events rt' = events rt ++ replicate k (Executed i))
      ∧ budget rt ≠ None
  | Fail _ _ rt' =>
      store rt' = store rt
      ∧ ∃ k, events rt' = events rt ++ replicate (Datatypes.S k) (Executed i)
  end.
Proof.
  unfold execute. pose proof (dispatch_frame i t ins (max_retries t) 0 rt) as Hd.
  destruct (dispatch i t ins (max_retries t) 0 rt) as [[v n] rt1|rt1|j e rt1].
  - destruct Hd as (Hs & (k & He) & Hb).
    destruct (checkpoint t); [|split; [done|by exists k]].
    unfold persist. destruct (budget rt1) as [[|b]|] eqn:Hb1.
    + split; [done|]. split; [by exists (1 + k)|].
      intros Hnone. by specialize (Hb Hnone).
    + split; [intros Hnone; by specialize (Hb Hnone)|].
      exists k, n. cbn. rewrite Hs, He, <- app_assoc. done.
    + split; [done|]. exists k, n. cbn. rewrite Hs, He, <- app_assoc. done.
  - destruct Hd as ((Hs & He & _) & Hne). done.
  - destruct Hd as (Hs & He & _). done.
Qed.

(** *** The history accounts for every committed output *)

Lemma committed_once_app j store events extra :
  committed_once j store events →
  Executed j ∉ extra → Committed j ∉ extra →
  committed_once j store (events ++ extra).
Proof.
  unfold committed_once. intros H Hex Hco. destruct (store !! j).
  - destruct H as (before & after & -> & H1 & H2 & H3 & H4).
    exists before, (after ++ extra). split; [by rewrite <- app_assoc|].
    repeat apply conj; [done|done| |]; rewrite elem_of_app; intros [?|?]; done.
  - rewrite elem_of_app. intros [?|?]; done.
Qed.

Lemma committed_once_other j i store events k r :
  j ≠ i → committed_once j store events →
  committed_once j store (events ++ replicate k (Executed i))
  ∧ committed_once j (<[i := r]> store)
      (events ++ replicate k (Executed i) ++ [Committed i]).
Proof.
  intros Hne H. split.
  - apply committed_once_app; [done| |];
      rewrite elem_of_replicate; intros [? _]; congruence.
  - assert (H' : committed_once j store
                   (events ++ replicate k (Executed i) ++ [Committed i])).
    { apply committed_once_app; [done| |]; rewrite elem_of_app, elem_of_replicate,
        list_elem_of_singleton; intros [[? _]|?]; congruence. }
    unfold committed_once in *. by rewrite lookup_insert_ne.
Qed.

Lemma committed_once_same i store events r :
  store !! i = None → committed_once i store events →
  (∀ k, committed_once i store (events ++ replicate k (Executed i)))
  ∧ (∀ k, committed_once i (<[i := r]> store)
            (events ++ replicate (Datatypes.S k) (Executed i) ++ [Committed i])).
Proof.
  unfold committed_once. intros Hnone H. rewrite Hnone in *. split; intros k.
  - rewrite elem_of_app, elem_of_replicate. intros [?|[? _]]; done.
  - rewrite lookup_insert_eq.
    exists (events ++ replicate (Datatypes.S k) (Executed i)), [].
    split; [by rewrite <- app_assoc|]. repeat apply conj.
    + rewrite elem_of_app, elem_of_replicate. right. done.
    + rewrite elem_of_app, elem_of_replicate. intros [?|[? _]]; done.
    + apply not_elem_of_nil.
    + apply not_elem_of_nil.
Qed.

Lemma execute_log i t ins rt :
  store rt !! i = None →
  (∀ j, committed_once j (store rt) (events rt)) →
  match execute i t ins rt with
  | Done v rt' =>
      (∀ j, committed_once j (store rt') (events rt'))
      ∧ store rt ⊆ store rt'
      ∧ (checkpoint t = true → is_Some (store rt' !! i))
      ∧ (budget rt = None → budget rt' = None)
  | Crash rt' => (∀ j, committed_once j (store rt') (events rt')) ∧ budget rt ≠ None
  | Fail _ _ rt' => ∀ j, committed_once j (store rt') (events rt')
  end.
Proof.
  intros Hnone Hlog. pose proof (execute_frame i t ins rt) as Hf.
  assert (Hgrow : ∀ rt' k, store rt' = store rt →
            events rt' = events rt ++ replicate k (Executed i) →
            ∀ j, committed_once j (store rt') (events rt')).
  { intros rt' k -> -> j. destruct (decide (j = i)) as [->|Hne].
    - by apply (committed_once_same i _ _ (Plain 0, 0)).
    - by apply (committed_once_other j i _ _ k (Plain 0, 0)). }
  destruct (execute i t ins rt) as [v rt'|rt'|j e rt'].
  - destruct Hf as (Hb & k & Hf). destruct (checkpoint t).
    + destruct Hf as (n & -> & ->). repeat apply conj; [| | |done].
      * intros j. destruct (decide (j = i)) as [->|Hne].
        -- by apply committed_once_same.
        -- by apply committed_once_other.
      * by apply insert_subseteq.
      * intros _. rewrite lookup_insert_eq. by eexists.
    + destruct Hf as (Hs & He). repeat apply conj; [by eapply Hgrow|by rewrite Hs|done|done].
  - destruct Hf as (Hs & (k & He) & Hb). split; [by eapply Hgrow|done].
  - destruct Hf as (Hs & (k & He)). by eapply Hgrow.
Qed.

Lemma walk_log nodes :
  ∀ i memory rt,
    (∀ j, committed_once j (store rt) (events rt)) →
    match walk i nodes memory rt with
    | Done _ rt' =>
        (∀ j, committed_once j (store rt') (events rt'))
        ∧ store rt ⊆ store rt'
        ∧ (∀ k t, nodes !! k = Some t → checkpoint t = true →
                  is_Some (store rt' !! (i + k)))
    | Crash rt' => (∀ j, committed_once j (store rt') (events rt')) ∧ budget rt ≠ None
    | Fail _ _ rt' => ∀ j, committed_once j (store rt') (events rt')
    end.
Proof.
  induction nodes as [|t rest IH]; intros i memory rt Hlog; cbn [walk].
  - repeat apply conj; [done|done|]. intros k t Hk. by rewrite lookup_nil in Hk.
  - assert (Hlater : ∀ rt1 memory1, store rt ⊆ store rt1 →
              is_Some (store rt1 !! i) ∨ checkpoint t = false →
              (budget rt = None → budget rt1 = None) →
              (∀ j, committed_once j (store rt1) (events rt1)) →
              match walk (Datatypes.S i) rest memory1 rt1 with
              | Done _ rt' =>
                  (∀ j, committed_once j (store rt') (events rt'))
                  ∧ store rt ⊆ store rt'
                  ∧ (∀ k t0, (t :: rest) !! k = Some t0 → checkpoint t0 = true →
                             is_Some (store rt' !! (i + k)))
              | Crash rt' =>
                  (∀ j, committed_once j (store rt') (events rt')) ∧ budget rt ≠ None
              | Fail _ _ rt' => ∀ j, committed_once j (store rt') (events rt')
              end).
    { intros rt1 memory1 Hsub Hi Hb Hlog1. specialize (IH (Datatypes.S i) memory1 rt1 Hlog1).
      destruct (walk (Datatypes.S i) rest memory1 rt1) as [m rt'|rt'|j e rt']; [| |done].
      - destruct IH as (H1 & H2 & H3). repeat apply conj; [done|by etrans|].
        intros [|k] t0 Hk Hc; cbn in Hk.
        + injection Hk as <-. rewrite Nat.add_0_r. destruct Hi as [[r Hi]|Hi]; [|congruence].
          exists r. by eapply lookup_weaken.
        + replace (i + Datatypes.S k) with (Datatypes.S i + k) by lia. by eapply H3.
      - destruct IH as (H1 & H2). split; [done|]. intros Hn. by apply H2, Hb. }
    destruct (store rt !! i) as [[v n]|] eqn:Hi.
    + apply Hlater; [done|left; by rewrite Hi|done|done].
    + destruct (inputs t memory) as [ins|]; [|done].
      pose proof (execute_log i t ins rt Hi Hlog) as He.
      destruct (execute i t ins rt) as [v rt1|rt1|j e rt1]; [|done|done].
      destruct He as (H1 & H2 & H3 & H4). apply Hlater; [done| |done|done].
      destruct (checkpoint t); [left; by apply H3|by right].
Qed.

Lemma walk_memory nodes :
  ∀ i memory rt,
    match walk i nodes memory rt with
    | Done memory' _ =>
        (∀ j, is_Some (memory !! j) → is_Some (memory' !! j))
        ∧ (∀ k, k < length nodes → is_Some (memory' !! (i + k)))
    | _ => True
    end.
Proof.
  induction nodes as [|t rest IH]; intros i memory rt; cbn [walk].
  - split; [done|]. cbn. lia.
  - assert (Hlater : ∀ v rt1,
              match walk (Datatypes.S i) rest (<[i := v]> memory) rt1 with
              | Done memory' _ =>
                  (∀ j, is_Some (memory !! j) → is_Some (memory' !! j))
                  ∧ (∀ k, k < length (t :: rest) → is_Some (memory' !! (i + k)))
              | _ => True
              end).
    { intros v rt1. specialize (IH (Datatypes.S i) (<[i := v]> memory) rt1).
      destruct (walk (Datatypes.S i) rest (<[i := v]> memory) rt1) as [m rt'|rt'|j e rt'];
        [|done|done].
      destruct IH as [H1 H2]. split.
      - intros j Hj. apply H1. destruct (decide (i = j)) as [<-|Hne].
        + rewrite lookup_insert_eq. by eexists.
        + by rewrite lookup_insert_ne.
      - intros [|k] Hk; cbn in Hk.
        + rewrite Nat.add_0_r. apply H1. rewrite lookup_insert_eq. by eexists.
        + replace (i + Datatypes.S k) with (Datatypes.S i + k) by lia. apply H2. lia. }
    destruct (store rt !! i) as [[v n]|]; [apply Hlater|].
    destruct (inputs t memory) as [ins|]; [|done].
    destruct (execute i t ins rt) as [v rt1|rt1|j e rt1]; [apply Hlater|done|done].
Qed.

Lemma attempt_logged dag0 b wf :
  dag wf = dag0 → (∀ i, committed_once i (committed wf) (history wf)) →
  logged dag0 (attempt b wf) ∧ (b = None → status (attempt b wf) ≠ RESUMABLE).
Proof.
  intros Hd Hlog. unfold attempt.
  pose proof (walk_log (dag wf) 0 ∅
                (mk_Runtime b (now wf) (committed wf) (history wf)) Hlog) as Hw.
  pose proof (walk_memory (dag wf) 0 ∅
                (mk_Runtime b (now wf) (committed wf) (history wf))) as Hm.
  destruct (walk 0 (dag wf) ∅ _) as [m rt'|rt'|j e rt']; cbn.
  - destruct Hw as (H1 & H2 & H3). split; [|done].
    split; [done|]. split; [done|]. cbn. split.
    + intros i t Hi Hc. apply (H3 i t); by rewrite ?Hd.
    + intros Hne. destruct Hm as [_ Hm]. apply (Hm (sink (dag wf))).
      rewrite Hd. unfold sink. destruct dag0; [done|cbn; lia].
  - destruct Hw as (H1 & H2). split; [by split|]. intros ->. by destruct H2.
  - split; [|done]. split; [done|]. split; [done|]. cbn. by eexists.
Qed.

Lemma resume_logged dag0 b wf :
  logged dag0 wf →
  logged dag0 (resume b wf) ∧ (b = None → status (resume b wf) ≠ RESUMABLE).
Proof.
  intros (Hd & Hlog & Hst). unfold resume.
  destruct (status wf) eqn:Hs; try done; try (by apply attempt_logged).
  split; [|by rewrite Hs]. split; [done|]. split; [done|]. by rewrite Hs.
Qed.

Lemma resumes_logged dag0 ks :
  ∀ wf, logged dag0 wf → logged dag0 (foldl (λ wf k, resume (Some k) wf) wf ks).
Proof.
  induction ks as [|k ks IH]; intros wf H; cbn; [done|].
  apply IH. by apply resume_logged.
Qed.

Lemma run_logged dag0 b wf :
  run b dag0 = Some wf → logged dag0 wf ∧ (b = None → status wf ≠ RESUMABLE).
Proof.
  unfold run. destruct (acyclic dag0); [|done]. intros [= <-].
  apply attempt_logged; [done|]. intros i. unfold committed_once. cbn.
  rewrite lookup_empty. apply not_elem_of_nil.
Qed.

Lemma run_then_resume_logged dag0 crashes :
  acyclic dag0 = true →
  ∃ wf, run_then_resume crashes dag0 = Some wf ∧ logged dag0 wf ∧ status wf ≠ RESUMABLE.
Proof.
  intros Hac. destruct crashes as [|k ks]; cbn [run_then_resume].
  - destruct (run None dag0) as [wf|] eqn:Hr; [|unfold run in Hr; by rewrite Hac in Hr].
    exists wf. destruct (run_logged _ _ _ Hr) as [H1 H2]. by auto.
  - destruct (run (Some k) dag0) as [wf|] eqn:Hr; [|unfold run in Hr; by rewrite Hac in Hr].
    cbn. eexists. split; [done|]. destruct (run_logged _ _ _ Hr) as [H1 _].
    destruct (resume_logged dag0 None _ (resumes_logged dag0 ks wf H1)) as [H2 H3].
    by auto.
Qed.

(** *** Deterministic tasks: every attempt computes the values of the graph *)

Lemma dispatch_det i t ins :
  deterministic t →
  ∀ retries_left retry_count rt,
    match dispatch i t ins retries_left retry_count rt with
    | Done (v, _) _ => task_outcome t ins = inl v
    | Crash _ => True
    | Fail j e _ => j = i ∧ task_outcome t ins = inr e
    end.
Proof.
  intros Hdet. unfold task_outcome.
  induction retries_left as [|n IH]; intros retry_count rt; cbn [dispatch];
    rewrite (Hdet 0 (clock rt) ins);
    destruct (budget rt) as [[|b]|]; try done;
    destruct (operation t (clock rt) ins) as [z|e] eqn:Hop;
    destruct (catch_exceptions t) eqn:Hc; try done.
  - specialize (IH (Datatypes.S retry_count)
      (mk_Runtime (Init.Nat.pred <$> Some (Datatypes.S b)) (Datatypes.S (clock rt))
         (store rt) (events rt ++ [Executed i]))).
    rewrite (Hdet 0 (clock rt) ins), Hop in IH. exact IH.
  - specialize (IH (Datatypes.S retry_count)
      (mk_Runtime (Init.Nat.pred <$> None) (Datatypes.S (clock rt))
         (store rt) (events rt ++ [Executed i]))).
    rewrite (Hdet 0 (clock rt) ins), Hop in IH. exact IH.
Qed.

Lemma execute_det i t ins rt :
  deterministic t →
  match execute i t ins rt with
  | Done v _ => task_outcome t ins = inl v
  | Crash _ => True
  | Fail j e _ => j = i ∧ task_outcome t ins = inr e
  end.
Proof.
  intros Hdet. unfold execute.
  pose proof (dispatch_det i t ins Hdet (max_retries t) 0 rt) as Hd.
  destruct (dispatch i t ins (max_retries t) 0 rt) as [[v n] rt1|rt1|j e rt1]; [|done|done].
  destruct (checkpoint t); [|done]. unfold persist.
  destruct (budget rt1) as [[|b]|]; done.
Qed.

Lemma values_from_prefix nodes :
  ∀ acc j v, acc !! j = Some v → (values_from nodes acc).1 !! j = Some v.
Proof.
  induction nodes as [|t rest IH]; intros acc j v Hj; cbn [values_from]; [done|].
  destruct (task_outcome t _); [|done].
  apply IH. by apply lookup_app_l_Some.
Qed.

Lemma inputs_resolved t i memory acc :
  forallb (λ d, Nat.ltb d i) (deps t) = true → length acc = i →
  (∀ j, memory !! j = acc !! j) →
  ∃ ins, inputs t memory = Some ins ∧ mapM (λ d, acc !! d) (deps t) = Some ins.
Proof.
  intros Hdeps Hlen Hmem. unfold inputs.
  rewrite (mapM_ext _ (λ d, acc !! d)) by done.
  destruct (mapM_is_Some_2 (λ d, acc !! d) (deps t)) as [ins Hins]; [|by exists ins].
  apply Forall_forall. intros d Hd. cbn. apply lookup_lt_is_Some.
  rewrite forallb_forall in Hdeps. specialize (Hdeps d).
  rewrite Hlen. apply Nat.ltb_lt, Hdeps. by apply list_elem_of_In.
Qed.

Lemma walk_values nodes :
  ∀ i memory rt acc,
    Forall deterministic nodes → acyclic_from i nodes = true →
    length acc = i → (∀ j, memory !! j = acc !! j) →
    (∀ j v n, store rt !! j = Some (v, n) → (values_from nodes acc).1 !! j = Some v) →
    match walk i nodes memory rt with
    | Done memory' rt' =>
        (values_from nodes acc).2 = None
        ∧ (∀ j, memory' !! j = (values_from nodes acc).1 !! j)
        ∧ (∀ j v n, store rt' !! j = Some (v, n) →
                    (values_from nodes acc).1 !! j = Some v)
    | Crash rt' =>
        ∀ j v n, store rt' !! j = Some (v, n) → (values_from nodes acc).1 !! j = Some v
    | Fail j e rt' =>
        (values_from nodes acc).2 = Some (j, e)
        ∧ (∀ j v n, store rt' !! j = Some (v, n) →
                    (values_from nodes acc).1 !! j = Some v)
    end.
Proof.
  induction nodes as [|t rest IH]; intros i memory rt acc Hdet Hac Hlen Hmem Hst;
    cbn [walk values_from] in Hst |- *; [done|].
  apply Forall_cons in Hdet as [Ht Hrest].
  cbn [acyclic_from] in Hac. apply andb_true_iff in Hac as [Hdeps Hac].
  destruct (inputs_resolved t i memory acc Hdeps Hlen Hmem) as (ins & Hins & Hacc).
  revert Hst. rewrite Hacc. change (default [] (Some ins)) with ins.
  assert (Hnext : ∀ v, ∀ j, <[i := v]> memory !! j = (acc ++ [v]) !! j).
  { intros v j. destruct (decide (i = j)) as [<-|Hne].
    - rewrite lookup_insert_eq, lookup_app_r by lia.
      by rewrite <- Hlen, Nat.sub_diag.
    - rewrite lookup_insert_ne by done. rewrite Hmem.
      destruct (decide (j < i)) as [Hlt|Hge].
      + rewrite lookup_app_l by lia. done.
      + rewrite (lookup_ge_None_2 acc) by lia.
        symmetry. apply lookup_ge_None_2. rewrite length_app. cbn. lia. }
  assert (Hlen' : ∀ v, length (acc ++ [v]) = Datatypes.S i).
  { intros v. rewrite length_app. cbn. lia. }
  assert (Hlast : ∀ v, (values_from rest (acc ++ [v])).1 !! i = Some v).
  { intros v. apply values_from_prefix. rewrite lookup_app_r by lia.
    by rewrite <- Hlen, Nat.sub_diag. }
  pose proof (execute_det i t ins rt Ht) as He.
  pose proof (execute_frame i t ins rt) as Hf.
  destruct (task_outcome t ins) as [v'|e] eqn:Hout; intros Hst.
  - destruct (store rt !! i) as [[v n]|] eqn:Hi.
    + specialize (Hst i v n Hi) as Hv. rewrite Hlast in Hv. injection Hv as ->.
      by apply IH.
    + rewrite Hins. destruct (execute i t ins rt) as [v rt1|rt1|j e rt1].
      * injection He as <-. apply IH; try done.
        destruct Hf as (_ & k & Hf). destruct (checkpoint t).
        -- destruct Hf as (n & -> & _). intros j v n'.
           destruct (decide (i = j)) as [<-|Hne].
           ++ rewrite lookup_insert_eq. intros [= <- <-]. apply Hlast.
           ++ rewrite lookup_insert_ne by done. apply Hst.
        -- destruct Hf as (-> & _). done.
      * destruct Hf as (-> & _). done.
      * by destruct He.
  - destruct (store rt !! i) as [[v n]|] eqn:Hi.
    + specialize (Hst i v n Hi) as Hv. cbn in Hv.
      rewrite lookup_ge_None_2 in Hv by lia. done.
    + rewrite Hins. destruct (execute i t ins rt) as [v rt1|rt1|j e' rt1]; [done| |].
      * destruct Hf as (-> & _). done.
      * destruct He as [-> [= <-]]. destruct Hf as (-> & _).
        split; [by rewrite Hlen|done].
Qed.

Lemma attempt_sound dag0 b wf :
  acyclic dag0 = true → Forall deterministic dag0 →
  dag wf = dag0 →
  (∀ j v n, committed wf !! j = Some (v, n) → (values_from dag0 []).1 !! j = Some v) →
  sound dag0 (attempt b wf).
Proof.
  intros Hac Hdet Hd Hst. unfold attempt. rewrite Hd.
  pose proof (walk_values dag0 0 ∅ (mk_Runtime b (now wf) (committed wf) (history wf)) []
                Hdet Hac eq_refl (λ j, lookup_empty j) Hst) as Hw.
  destruct (walk 0 dag0 ∅ _) as [m rt'|rt'|j e rt']; cbn.
  - destruct Hw as (H1 & H2 & H3). unfold sound. cbn.
    repeat apply conj; [done|done|done|apply H2|done].
  - unfold sound. cbn. by repeat apply conj.
  - destruct Hw as (H1 & H2). unfold sound. cbn.
    repeat apply conj; [done|done|done|by rewrite H1|by eexists].
Qed.

Lemma resume_sound dag0 b wf :
  acyclic dag0 = true → Forall deterministic dag0 →
  sound dag0 wf → sound dag0 (resume b wf).
Proof.
  intros Hac Hdet (Hd & Hst & Hs). unfold resume.
  destruct (status wf) eqn:Hstatus; try done; try (by apply attempt_sound).
  split; [done|]. split; [done|]. by rewrite Hstatus.
Qed.

Lemma resumes_sound dag0 ks :
  acyclic dag0 = true → Forall deterministic dag0 →
  ∀ wf, sound dag0 wf → sound dag0 (foldl (λ wf k, resume (Some k) wf) wf ks).
Proof.
  intros Hac Hdet. induction ks as [|k ks IH]; intros wf H; cbn; [done|].
  apply IH. by apply resume_sound.
Qed.

Lemma run_sound dag0 b wf :
  Forall deterministic dag0 → run b dag0 = Some wf → sound dag0 wf.
Proof.
  unfold run. intros Hdet. destruct (acyclic dag0) eqn:Hac; [|done]. intros [= <-].
  by apply attempt_sound.
Qed.

Lemma run_then_resume_sound dag0 crashes wf :
  Forall deterministic dag0 → run_then_resume crashes dag0 = Some wf → sound dag0 wf.
Proof.
  intros Hdet. destruct crashes as [|k ks]; cbn [run_then_resume].
  - by apply run_sound.
  - destruct (run (Some k) dag0) as [wf1|] eqn:Hr; [|done]. cbn. intros [= <-].
    assert (Hac : acyclic dag0 = true).
    { unfold run in Hr. by destruct (acyclic dag0). }
    apply resume_sound; [done|done|]. apply resumes_sound; [done|done|].
    by eapply run_sound.
Qed.

Lemma sound_settled dag0 wf wf0 :
  sound dag0 wf → sound dag0 wf0 →
  status wf ≠ RESUMABLE → status wf0 ≠ RESUMABLE →
  status wf = status wf0 ∧ output wf = output wf0 ∧ failure wf = failure wf0.
Proof.
  intros (_ & _ & H) (_ & _ & H0) Hne Hne0.
  destruct (status wf), (status wf0); try done.
  - destruct H as (_ & -> & ->), H0 as (_ & -> & ->). done.
  - destruct H as (H & _), H0 as (_ & H0 & [x Hx]). congruence.
  - destruct H0 as (H0 & _), H as (_ & H & [x Hx]). congruence.
  - destruct H as (-> & -> & _), H0 as (-> & -> & _). done.
Qed.




(** The scenario [A -> C], [B -> C]: interrupted after [A] and [B] are
    committed and before [C] runs, the workflow is [RESUMABLE]; [resume]
    gives the output 3 and runs neither [A] nor [B] again. *)
Example scenario_sum :
  ∃ wf1, run (Some 4) [task_A; task_B; task_C] = Some wf1
         ∧ status wf1 = RESUMABLE
         ∧ history wf1 = [Executed 0; Committed 0; Executed 1; Committed 1]
         ∧ status (resume None wf1) = SUCCESSFUL
         ∧ output (resume None wf1) = Some (Plain 3)
         ∧ executed 0 (resume None wf1) = 1
         ∧ executed 1 (resume None wf1) = 1
         ∧ executed 2 (resume None wf1) = 1.
Proof. eexists. repeat apply conj; reflexivity. Qed.

(** A task with [max_retries = 2] that fails twice and then succeeds
    commits the successful output with a [retry_count] of 2. *)
Example retry_count_recorded :
  ∃ wf, run None [task_flaky] = Some wf
        ∧ status wf = SUCCESSFUL
        ∧ committed wf !! 0 = Some (Plain 7, 2)
        ∧ executed 0 wf = 3.
Proof. eexists. repeat apply conj; reflexivity. Qed.

(** A task whose retries are exhausted leaves the workflow [FAILED] with
    nothing committed; [resume] on the [FAILED] workflow runs the walker
    again. *)
Example resume_of_failed :
  ∃ wf, run None [task_late] = Some wf
        ∧ status wf = FAILED
        ∧ failure wf = Some (0, RuntimeError "too early")
        ∧ committed wf !! 0 = None
        ∧ status (resume None wf) = SUCCESSFUL
        ∧ output (resume None wf) = Some (Plain 5)
        ∧ executed 0 (resume None wf) = 2.
Proof. eexists. repeat apply conj; reflexivity. Qed.

(** A task with [catch_exceptions] that throws yields a result that carries
    the exception, and the workflow is [SUCCESSFUL]. *)
Example caught_exception_succeeds :
  ∃ wf, run None [task_throws] = Some wf
        ∧ status wf = SUCCESSFUL
        ∧ output wf = Some (Caught None (Some (RuntimeError "boom"))).
Proof. eexists. repeat apply conj; reflexivity. Qed.
End engine_facts.

(** * The statements at concrete inputs *)

Lemma delete_running_witness :
  (store.get_status "job" (engine (store.fresh {["job" := RUNNING]}))).1 = Return RUNNING
  ∧ (api.delete store.get_status store.delete_workflow false (PyStr "job")
       (store.fresh {["job" := RUNNING]})).1
    = Raise (WorkflowRunningError "DELETE" (PyStr "job"))
  ∧ engine (api.delete store.get_status store.delete_workflow false (PyStr "job")
              (store.fresh {["job" := RUNNING]})).2
    = {["job" := RUNNING]}.
Proof.
  assert (H0 : (store.get_status "job" (engine (store.fresh {["job" := RUNNING]}))).1
               = Return RUNNING) by reflexivity.
  split; [exact H0|].
  destruct (delete_running store.get_status store.delete_workflow false "job"
              (store.fresh {["job" := RUNNING]}) H0) as (H1 & H2 & _).
  split; [exact H1|]. rewrite H2. reflexivity.
Defined.

Lemma delete_unknown_witness :
  (store.get_status "ghost" (engine (store.fresh ∅))).1
    = Raise (ValueError "No such workflow_id")
  ∧ isinstance_exn (ValueError "No such workflow_id") "ValueError" = true
  ∧ (api.get_status store.get_status false (PyStr "ghost") (store.fresh ∅)).1
    = Raise (ValueError "No such workflow_id")
  ∧ (api.delete store.get_status store.delete_workflow false (PyStr "ghost")
       (store.fresh ∅)).1
    = Raise (WorkflowNotFoundError (PyStr "ghost")).
Proof.
  assert (H0 : (store.get_status "ghost" (engine (store.fresh ∅))).1
               = Raise (ValueError "No such workflow_id")) by reflexivity.
  assert (Hv : isinstance_exn (ValueError "No such workflow_id") "ValueError" = true)
    by reflexivity.
  split; [exact H0|]. split; [exact Hv|].
  destruct (delete_unknown store.get_status store.delete_workflow false "ghost"
              (store.fresh ∅) (ValueError "No such workflow_id") H0 Hv)
    as (H1 & H2 & _).
  split; [exact H1|exact H2].
Defined.

Lemma non_string_id_rejected_witness :
  api.isinstance_str false (PyInt 5) = false
  ∧ (api.get_status store.get_status false (PyInt 5) (store.fresh {["job" := RUNNING]})).1
    = Raise (TypeError "workflow_id has to be a string type.")
  ∧ (api.cancel store.cancel false (PyInt 5) (store.fresh {["job" := RUNNING]})).1
    = Raise (TypeError "workflow_id has to be a string type.")
  ∧ engine (api.cancel store.cancel false (PyInt 5) (store.fresh {["job" := RUNNING]})).2
    = {["job" := RUNNING]}.
Proof.
  split; [reflexivity|].
  destruct (non_string_id_rejected store.get_status store.cancel false (PyInt 5)
              (store.fresh {["job" := RUNNING]}) eq_refl)
    as (H1 & H2 & _ & H4 & _).
  split; [by rewrite H1|]. split; [by rewrite H2|]. rewrite H4. reflexivity.
Defined.

(** C6, as stated, fails at [wait_for_event] and at [sleep]: called in a
    process where nothing is initialised, they return a graph and leave the
    process uninitialised. *)
Lemma wait_for_event_unguarded :
  ¬ guarded (api.wait_for_event (S:=unit) TimerListener_class [] [])
  ∧ ¬ guarded (api.sleep (S:=unit) TimerListener_class (PyInt 1)).
Proof.
  split; intros H; destruct (H (mk_World false None false false false () [])) as [H1 _];
    discriminate H1.
Qed.

(** C3, as stated, fails at a string that is the value of no status: it
    does not become a set of statuses, [list_all] raises [ValueError]. *)
Lemma list_all_invalid_string :
  (api.list_all store.list_all false (PyStr "BOGUS") (store.fresh ∅)).1
    = Raise (ValueError "BOGUS is not a valid WorkflowStatus")
  ∧ no_engine_call (api.list_all store.list_all false (PyStr "BOGUS")) (store.fresh ∅).
Proof. split; [reflexivity|]. repeat constructor. Qed.

Lemma list_all_normalizes_witness :
  (∃ e, api.list_all store.list_all false (PySet [PyStr "RUNNING"; PyStatus FAILED])
           (store.fresh ∅)
         = (Raise e, (api._ensure_workflow_initialized (store.fresh ∅)).2)
        ∧ exn_class e = "TypeError")
  ∧ api.list_all store.list_all false (PyStr "RUNNING") (store.fresh {["job" := RUNNING]})
    = invoke (Call_execution_list_all {[RUNNING]}) (store.list_all {[RUNNING]})
             (api._ensure_workflow_initialized (store.fresh {["job" := RUNNING]})).2.
Proof.
  split.
  - destruct (list_all_normalizes store.list_all false (store.fresh ∅))
      as (_ & _ & _ & _ & _ & _ & _ & H & _).
    exact (H (PySet [PyStr "RUNNING"; PyStatus FAILED]) eq_refl).
  - destruct (list_all_normalizes store.list_all false (store.fresh {["job" := RUNNING]}))
      as (_ & H & _).
    exact (H RUNNING).
Defined.

(** C7, as stated, fails at an unknown keyword: the error raised is a
    [ValueError], which is no [InvalidOptionsError]. *)
Lemma options_init_not_InvalidOptionsError :
  ∃ e, api.options_init "workflow.io/options" (λ _, Return ()) [("foo", PyInt 1)] = Raise e
       ∧ exn_class e = "ValueError"
       ∧ isinstance_exn e "InvalidOptionsError" = false.
Proof. eexists. split; [reflexivity|]. split; reflexivity. Qed.

Lemma options_init_keywords_witness :
  api.options_init "workflow.io/options" (λ _, Return ()) [("foo", PyInt 1)]
    = Raise (ValueError "Invalid option keywords for workflow steps.")
  ∧ api.options_init "workflow.io/options" (λ _, Return ())
      [("name", PyStr "step"); ("max_retries", PyInt 2)]
    = Return (api.mk_options
        {[ "_metadata" :=
             PyDict [("workflow.io/options",
                      PyDict [("name", PyStr "step"); ("max_retries", PyInt 2)])] ]}).
Proof.
  split.
  - destruct (options_init_keywords "workflow.io/options" (λ _, Return ())
                [("foo", PyInt 1)]) as (H & _).
    apply H. exists "foo". split; [by left|].
    apply (bool_decide_eq_false_1 _). reflexivity.
  - destruct (options_init_keywords "workflow.io/options" (λ _, Return ())
                [("name", PyStr "step"); ("max_retries", PyInt 2)]) as (_ & H & _).
    apply H; [|reflexivity].
    intros k Hk. cbn in Hk.
    apply elem_of_cons in Hk as [->|Hk]; [apply (bool_decide_eq_true_1 _); reflexivity|].
    apply elem_of_cons in Hk as [->|Hk]; [apply (bool_decide_eq_true_1 _); reflexivity|].
    by apply elem_of_nil in Hk.
Defined.

(** C8, as stated, fails at a remote function without options: after the
    call its [_default_options] hold the ["_metadata"] entry, so the heap is
    not what it was. *)
Lemma options_call_mutates :
  let self := api.mk_options {[ "_metadata" := PyDict [("workflow.io/options", PyDict [])] ]} in
  let heap : gmap nat PyObject := {[ 0 := RemoteFunction ∅ ]} in
  (api.options_call self (PyRef 0) heap).1 = Return (PyRef 0)
  ∧ (api.options_call self (PyRef 0) heap).2 !! 0
    = Some (RemoteFunction {[ "_metadata" := PyDict [("workflow.io/options", PyDict [])] ]})
  ∧ (api.options_call self (PyRef 0) heap).2 ≠ heap.
Proof.
  cbn zeta. split; [reflexivity|]. split; [reflexivity|].
  intros H. apply (f_equal (λ h, h !! 0)) in H. vm_compute in H. discriminate H.
Qed.

Lemma options_call_updates_witness :
  let self := api.mk_options {[ "_metadata" := PyDict [("workflow.io/options", PyDict [])] ]} in
  let heap : gmap nat PyObject :=
    {[ 0 := RemoteFunction {[ "num_cpus" := PyInt 2 ]}; 1 := OtherObject "int" ]} in
  api.options_call self (PyRef 0) heap
    = (Return (PyRef 0),
       <[0 := RemoteFunction (api.options_dict self ∪ {[ "num_cpus" := PyInt 2 ]})]> heap)
  ∧ api.options_call self (PyRef 1) heap
    = (Raise (ValueError "Only apply 'workflow.options' to Ray remote functions."), heap).
Proof.
  cbn zeta. split.
  - eapply (options_call_updates _ (PyRef 0)); reflexivity.
  - apply (options_call_updates _ (PyRef 1)).
    intros addr opts Heq. injection Heq as <-. discriminate.
Defined.

Lemma wait_for_event_two_tasks_witness :
  let w := mk_World false None false false false () [] in
  let poll := FunctionNode get_message [ArgValue TimerListener_class] [] in
  let dag := FunctionNode message_committed [ArgValue TimerListener_class; ArgNode poll] [] in
  api.wait_for_event TimerListener_class [] [] w = (Return dag, w)
  ∧ bridge.dag_size dag = 2
  ∧ bridge.exec_node tick_poll tick_ack (λ _ d, d) dag (mk_ExecState 7 [])
    = (Return (PyInt 7),
       mk_ExecState 8 [Polled "TimerListener" (PyInt 7);
                       Checkpointed get_message (PyInt 7);
                       Acknowledged "TimerListener" (PyInt 7);
                       Checkpointed message_committed (PyInt 7)]).
Proof.
  cbn zeta.
  destruct (wait_for_event_two_tasks tick_poll tick_ack (λ _ d, d) TimerListener_class [] []
              (mk_World false None false false false () [])) as [H _].
  destruct (H "TimerListener" ["TimerListener"; "EventListener"; "object"] eq_refl)
    as (H1 & H2 & H3).
  { apply (bool_decide_eq_true_1 _). reflexivity. }
  split; [exact H1|]. split; [exact H2|].
  exact (H3 (mk_ExecState 7 []) [] [] (mk_ExecState 7 []) (mk_ExecState 7 [])
            eq_refl eq_refl).
Defined.

(** When [WorkflowStatus] derives from [str], a set mixing strings and
    statuses reaches the engine as a set of statuses. *)
Example list_all_mixed_set_str_enum :
  new_calls (api.list_all store.list_all true (PySet [PyStr "RUNNING"; PyStatus FAILED]))
            (mk_World true None true true true ∅ [])
  = [mk_entry (Call_execution_list_all {[RUNNING; FAILED]}) true].
Proof. reflexivity. Qed.

(** * Further properties of the initialisation *)

Section more_init_facts.
Context {S : Type}.
Implicit Types w : World S.

(** X1: the initialisation check runs [init] exactly when the module flag
    or Ray is down, and is otherwise without any effect; a check that
    follows a check changes nothing, not even the log of calls. *)
Theorem ensure_only_when_needed w :
  api._ensure_workflow_initialized w
    = (if workflow_ready w then (Return (), w) else api.init w)
  ∧ api._ensure_workflow_initialized (api._ensure_workflow_initialized w).2
    = (Return (), (api._ensure_workflow_initialized w).2).
Proof.
  split.
  - unfold api._ensure_workflow_initialized, workflow_ready.
    by destruct (_is_workflow_initialized w), (ray_is_initialized w).
  - destruct (ensure_engine w) as (_ & _ & Hr & _).
    pose proof (ensure_ready_id _ Hr) as Hid.
    destruct (ensure_spec (api._ensure_workflow_initialized w).2) as (new & He & _).
    rewrite He in Hid |- *. cbn in Hid. by rewrite Hid.
Qed.

(** X2: [init] records the library usage, starts Ray with the default
    storage only if Ray is not initialised, then sets up the management
    actor and the serialization manager, in this order; the storage of a
    Ray that is already up and the engine's state are left as they are. *)
Theorem init_calls w :
  entry_call <$> new_calls api.init w
    = Call_record_library_usage "workflow"
      :: (if ray_is_initialized w then []
          else [Call_ray_init "file:///tmp/ray/workflow_data"])
      ++ [Call_init_management_actor; Call_init_manager]
  ∧ ray_storage (api.init w).2
    = (if ray_is_initialized w then ray_storage w
       else Some "file:///tmp/ray/workflow_data")
  ∧ engine (api.init w).2 = engine w.
Proof.
  unfold new_calls. destruct w as [r st i a m s c]. destruct r; unfold_init; cbn.
  - rewrite <- !app_assoc, drop_app_length. done.
  - rewrite <- !app_assoc, drop_app_length. done.
Qed.

(** *** Steps that call the engine only *)
Lemma engine_ret {A} (a : A) : engine_step (mret a : M S A).
Proof. intros w Hw. split; [done|]. exists []. by rewrite app_nil_r. Qed.

Lemma engine_raise {A} e : engine_step (raise e : M S A).
Proof. intros w Hw. split; [done|]. exists []. by rewrite app_nil_r. Qed.

Lemma engine_lift {A} (r : Result A) : engine_step (lift r : M S A).
Proof. intros w Hw. split; [done|]. exists []. by rewrite app_nil_r. Qed.

Lemma engine_invoke {A} c (f : S → Result A * S) :
  is_engine_call c = true → engine_step (invoke c f).
Proof.
  intros Hc w Hw. unfold invoke. destruct (f (engine (log c w))) as [r s'] eqn:Hf.
  cbn. split.
  - destruct w; exact Hw.
  - exists [mk_entry c (workflow_ready w)]. split; [done|].
    rewrite Hw. by repeat constructor.
Qed.

Lemma engine_bind {A B} (m : M S A) (k : A → M S B) :
  engine_step m → (∀ a, engine_step (k a)) → engine_step (m ≫= k).
Proof.
  intros Hm Hk w Hw. destruct (Hm w Hw) as (Hr & new & Hc & Hn).
  rewrite bind_run. destruct (m w) as [[a|e] w1] eqn:Hmw; cbn in *.
  - destruct (Hk a w1 Hr) as (Hr2 & new2 & Hc2 & Hn2). split; [done|].
    exists (new ++ new2). rewrite Hc2, Hc, app_assoc. split; [done|].
    by apply Forall_app.
  - split; [done|]. by exists new.
Qed.

Lemma engine_try {A} (body handler : M S A) cls :
  engine_step body → engine_step handler → engine_step (try_except body cls handler).
Proof.
  intros Hb Hh w Hw. destruct (Hb w Hw) as (Hr & new & Hc & Hn).
  unfold try_except. destruct (body w) as [[a|e] w1] eqn:Hbw; cbn in *.
  - split; [done|]. by exists new.
  - destruct (isinstance_exn e cls); cbn.
    + destruct (Hh w1 Hr) as (Hr2 & new2 & Hc2 & Hn2). split; [done|].
      exists (new ++ new2). rewrite Hc2, Hc, app_assoc. split; [done|].
      by apply Forall_app.
    + split; [done|]. by exists new.
Qed.

Lemma engine_ensure : engine_step (api._ensure_workflow_initialized (S:=S)).
Proof.
  intros w Hw. rewrite (ensure_ready_id w Hw). split; [done|].
  exists []. by rewrite app_nil_r.
Qed.
End more_init_facts.

(** * Further properties of the entry points *)

Section more_api_facts.
Context {S : Type}.
Variable execution_resume : pyval → S → Result pyval * S.
Variable execution_get_output : pyval → pyval → S → Result pyval * S.
Variable execution_list_all :
  gset WorkflowStatus → S → Result (list (string * WorkflowStatus)) * S.
Variable execution_resume_all : pyval → S → Result pyval * S.
Variable execution_get_status : string → S → Result WorkflowStatus * S.
Variable execution_get_metadata : pyval → pyval → S → Result pyval * S.
Variable execution_cancel : string → S → Result unit * S.
Variable delete_workflow : pyval → S → Result unit * S.
Variable WorkflowStatus_is_str : bool.
Implicit Types w : World S.

Local Notation resume := (api.resume execution_resume).
Local Notation get_output := (api.get_output execution_get_output).
Local Notation list_all := (api.list_all execution_list_all WorkflowStatus_is_str).
Local Notation resume_all := (api.resume_all execution_resume_all).
Local Notation get_status := (api.get_status execution_get_status WorkflowStatus_is_str).
Local Notation get_metadata := (api.get_metadata execution_get_metadata).
Local Notation cancel := (api.cancel execution_cancel WorkflowStatus_is_str).
Local Notation delete :=
  (api.delete execution_get_status delete_workflow WorkflowStatus_is_str).
Local Notation ensure := api._ensure_workflow_initialized.
Local Notation isinstance_str := (api.isinstance_str WorkflowStatus_is_str).
Local Notation api_call :=
  (api.api_call execution_resume execution_get_output execution_list_all
     execution_resume_all execution_get_status execution_get_metadata
     execution_cancel delete_workflow WorkflowStatus_is_str).
Local Notation session :=
  (api.session execution_resume execution_get_output execution_list_all
     execution_resume_all execution_get_status execution_get_metadata
     execution_cancel delete_workflow WorkflowStatus_is_str).

Lemma engine_get_status workflow_id : engine_step (get_status workflow_id).
Proof.
  apply engine_bind; [apply engine_ensure|]. intros _.
  destruct (api.as_str _ _); auto using engine_raise, engine_invoke.
Qed.

Lemma engine_list_all status_filter : engine_step (list_all status_filter).
Proof.
  apply engine_bind; [apply engine_ensure|]. intros _.
  apply engine_bind; [|intros; by apply engine_invoke].
  destruct (isinstance_str status_filter).
  - apply engine_bind; [apply engine_lift|]. intros. apply engine_ret.
  - destruct status_filter; try apply engine_raise; try apply engine_ret.
    repeat case_match; auto using engine_raise, engine_ret, engine_lift.
Qed.

Lemma engine_delete workflow_id : engine_step (delete workflow_id).
Proof.
  apply engine_bind; [apply engine_ensure|]. intros _.
  apply engine_bind; [|intros; by apply engine_invoke].
  apply engine_try; [|apply engine_raise].
  apply engine_bind; [apply engine_get_status|].
  intros st. case_bool_decide; auto using engine_raise, engine_ret.
Qed.

(** In an initialised process a call keeps the process initialised and
    calls the engine only. *)
Lemma api_call_ready c w :
  workflow_ready w = true →
  workflow_ready (api_call c w) = true
  ∧ ∃ new, calls (api_call c w) = calls w ++ new
           ∧ Forall (λ e, is_engine_call (entry_call e) = true ∧ entry_ready e = true) new.
Proof.
  intros Hw. destruct c; cbn [api.api_call].
  - apply (engine_bind ensure); [apply engine_ensure|intros; by apply engine_invoke|done].
  - apply (engine_bind ensure); [apply engine_ensure|intros; by apply engine_invoke|done].
  - by apply engine_list_all.
  - apply (engine_bind ensure); [apply engine_ensure|intros; by apply engine_invoke|done].
  - by apply engine_get_status.
  - apply (engine_bind ensure); [apply engine_ensure|intros; by apply engine_invoke|done].
  - apply (engine_bind ensure); [apply engine_ensure| |done]. intros _.
    destruct (api.as_str _ _); auto using engine_raise, engine_invoke.
  - by apply engine_delete.
Qed.

(** A call starts with the initialisation check. *)
Lemma api_call_ensure c w : api_call c w = api_call c (ensure w).2.
Proof.
  destruct (ensure_only_when_needed (ensure w).2) as [_ Hid].
  destruct (ensure_only_when_needed w) as [_ Hid'].
  destruct c; cbn [api.api_call];
    unfold api.resume, api.get_output, api.list_all, api.resume_all, api.get_status,
      api.get_metadata, api.cancel, api.delete;
    rewrite !bind_ensure_run, Hid'; done.
Qed.

Lemma session_cons c cs w : session (c :: cs) w = session cs (api_call c w).
Proof. reflexivity. Qed.

Lemma session_ready cs w :
  workflow_ready w = true →
  workflow_ready (session cs w) = true
  ∧ ∃ new, calls (session cs w) = calls w ++ new
           ∧ Forall (λ e, is_engine_call (entry_call e) = true ∧ entry_ready e = true) new.
Proof.
  revert w. induction cs as [|c cs IH]; intros w Hw.
  - split; [done|]. exists []. by rewrite app_nil_r.
  - rewrite session_cons. destruct (api_call_ready c w Hw) as (Hr & new & Hc & Hn).
    destruct (IH _ Hr) as (Hr2 & new2 & Hc2 & Hn2). split; [done|].
    exists (new ++ new2). rewrite Hc2, Hc, app_assoc. split; [done|].
    by apply Forall_app.
Qed.

(** X3: in a session of calls of the guarded entry points, with any
    arguments and whatever each call returns or raises, the only calls that
    set the process up are those of the initialisation check of the first
    call (none if the process was initialised); every later call in the log
    is a call to the engine made in an initialised process, and the process
    is initialised at the end. *)
Theorem session_initialises_once c cs w :
  ∃ rest,
    calls (session (c :: cs) w) = calls w ++ new_calls ensure w ++ rest
    ∧ Forall (λ e, is_engine_call (entry_call e) = false) (new_calls ensure w)
    ∧ (workflow_ready w = true → new_calls ensure w = [])
    ∧ Forall (λ e, is_engine_call (entry_call e) = true ∧ entry_ready e = true) rest
    ∧ workflow_ready (session (c :: cs) w) = true.
Proof.
  destruct (ensure_engine w) as (_ & _ & Hr & Hne).
  assert (Hs : session (c :: cs) w = session (c :: cs) (ensure w).2).
  { by rewrite !session_cons, api_call_ensure. }
  destruct (session_ready (c :: cs) _ Hr) as (Hr2 & rest & Hc & Hn).
  exists rest. rewrite Hs, Hc. unfold new_calls.
  destruct (ensure_spec w) as (new & He & _ & Hnil).
  unfold no_engine_call, new_calls in Hne. rewrite He in Hne, Hr2 |- *. cbn [snd calls] in *.
  rewrite drop_app_length in Hne |- *. rewrite <- app_assoc.
  repeat split; try done.
Qed.
End more_api_facts.

Section more_api_facts2.
Context {S : Type}.
Variable execution_resume : pyval → S → Result pyval * S.
Variable execution_get_output : pyval → pyval → S → Result pyval * S.
Variable execution_list_all :
  gset WorkflowStatus → S → Result (list (string * WorkflowStatus)) * S.
Variable execution_resume_all : pyval → S → Result pyval * S.
Variable execution_get_status : string → S → Result WorkflowStatus * S.
Variable execution_get_metadata : pyval → pyval → S → Result pyval * S.
Variable execution_cancel : string → S → Result unit * S.
Variable delete_workflow : pyval → S → Result unit * S.
Variable WorkflowStatus_is_str : bool.
Implicit Types w : World S.

Local Notation resume := (api.resume execution_resume).
Local Notation get_output := (api.get_output execution_get_output).
Local Notation list_all := (api.list_all execution_list_all WorkflowStatus_is_str).
Local Notation resume_all := (api.resume_all execution_resume_all).
Local Notation get_status := (api.get_status execution_get_status WorkflowStatus_is_str).
Local Notation get_metadata := (api.get_metadata execution_get_metadata).
Local Notation cancel := (api.cancel execution_cancel WorkflowStatus_is_str).
Local Notation delete :=
  (api.delete execution_get_status delete_workflow WorkflowStatus_is_str).
Local Notation ensure := api._ensure_workflow_initialized.
Local Notation isinstance_str := (api.isinstance_str WorkflowStatus_is_str).
Local Notation api_call :=
  (api.api_call execution_resume execution_get_output execution_list_all
     execution_resume_all execution_get_status execution_get_metadata
     execution_cancel delete_workflow WorkflowStatus_is_str).
Local Notation session :=
  (api.session execution_resume execution_get_output execution_list_all
     execution_resume_all execution_get_status execution_get_metadata
     execution_cancel delete_workflow WorkflowStatus_is_str).


(** X4: for a workflow whose status lookup answers a status other than
    [RUNNING], [delete] calls the deletion of the storage once, after the
    lookup, on the state the lookup left, and returns what the deletion
    returns or raises. *)
Theorem delete_not_running (id : string) w st :
  (execution_get_status id (engine w)).1 = Return st →
  st ≠ RUNNING →
  (delete (PyStr id) w).1
    = (delete_workflow (PyStr id) (execution_get_status id (engine w)).2).1
  ∧ engine (delete (PyStr id) w).2
    = (delete_workflow (PyStr id) (execution_get_status id (engine w)).2).2
  ∧ new_calls (delete (PyStr id)) w
    = new_calls ensure w
      ++ [mk_entry (Call_execution_get_status id) true;
          mk_entry (Call_delete_workflow (PyStr id)) true].
Proof.
  intros Hst Hne.
  assert (Hd := delete_run execution_get_status delete_workflow WorkflowStatus_is_str id w).
  cbn zeta in Hd.
  destruct (execution_get_status id (engine w)) as [r s1] eqn:Hq.
  cbn in Hst. subst r. rewrite bool_decide_eq_false_2 in Hd by done.
  unfold invoke in Hd. cbn [engine log set_engine] in Hd.
  destruct (delete_workflow (PyStr id) s1) as [r s2] eqn:Hdw.
  unfold new_calls. rewrite Hd. cbn.
  destruct (ensure_spec w) as (new & -> & _). cbn.
  rewrite <- !app_assoc, !drop_app_length. rewrite Hdw. done.
Qed.

(** X5: [delete] of an id that is not an instance of [str] raises the
    [TypeError] of [get_status], not [WorkflowNotFoundError]: the handler
    of [delete] catches [ValueError] only.  Nothing is looked up or
    deleted. *)
Theorem delete_non_string (workflow_id : pyval) w :
  isinstance_str workflow_id = false →
  delete workflow_id w
    = (Raise (TypeError "workflow_id has to be a string type."), (ensure w).2)
  ∧ no_engine_call (delete workflow_id) w.
Proof.
  intros Hv. unfold api.isinstance_str in Hv.
  assert (Hd : delete workflow_id w
               = (Raise (TypeError "workflow_id has to be a string type."), (ensure w).2)).
  { unfold api.delete. rewrite bind_ensure_run.
    destruct (ensure_engine w) as (_ & _ & Hr & _).
    rewrite bind_run. unfold try_except. rewrite bind_run.
    unfold api.get_status. rewrite bind_ensure_run, (ensure_ready_id _ Hr).
    by destruct (api.as_str _ _). }
  split; [done|].
  destruct (ensure_engine w) as (_ & _ & _ & Hn).
  unfold no_engine_call, new_calls in *. by rewrite Hd.
Qed.

(** X6: when the status lookup fails with an error that is not of class
    [ValueError], [delete] raises that very error and deletes nothing. *)
Theorem delete_lookup_error (id : string) w e :
  (execution_get_status id (engine w)).1 = Raise e →
  isinstance_exn e "ValueError" = false →
  (delete (PyStr id) w).1 = Raise e
  ∧ engine (delete (PyStr id) w).2 = (execution_get_status id (engine w)).2
  ∧ new_calls (delete (PyStr id)) w
    = new_calls ensure w ++ [mk_entry (Call_execution_get_status id) true].
Proof.
  intros Hst Hve.
  assert (Hd := delete_run execution_get_status delete_workflow WorkflowStatus_is_str id w).
  cbn zeta in Hd.
  destruct (execution_get_status id (engine w)) as [r s1] eqn:Hq.
  cbn in Hst. subst r. rewrite Hve in Hd.
  assert (Hn : new_calls (delete (PyStr id)) w
               = new_calls ensure w ++ [mk_entry (Call_execution_get_status id) true]).
  { eapply new_calls_ensure_log. by rewrite Hd. }
  rewrite Hn, Hd. done.
Qed.

Lemma forward_run {A} c (f : S → Result A * S) w :
  let r := (_ ← ensure; invoke c f) w in
  (r.1, engine r.2) = f (engine w).
Proof.
  cbn zeta. rewrite bind_ensure_run. unfold invoke. cbn [engine log].
  destruct (ensure_engine w) as (_ & -> & _).
  by destruct (f (engine w)).
Qed.

(** X7: [resume], [get_output], [resume_all] and [get_metadata] hand their
    arguments to the engine as they are, whatever their type, and
    [get_status] and [cancel] do so for a string; what the engine returns or
    raises is the outcome of the call, and the state the engine leaves is
    the state of the engine after the call. *)
Theorem entry_points_forward (workflow_id name include_failed : pyval) (id : string) w :
  ((resume workflow_id w).1, engine (resume workflow_id w).2)
    = execution_resume workflow_id (engine w)
  ∧ ((get_output workflow_id name w).1, engine (get_output workflow_id name w).2)
    = execution_get_output workflow_id name (engine w)
  ∧ ((resume_all include_failed w).1, engine (resume_all include_failed w).2)
    = execution_resume_all include_failed (engine w)
  ∧ ((get_metadata workflow_id name w).1, engine (get_metadata workflow_id name w).2)
    = execution_get_metadata workflow_id name (engine w)
  ∧ ((get_status (PyStr id) w).1, engine (get_status (PyStr id) w).2)
    = execution_get_status id (engine w)
  ∧ ((cancel (PyStr id) w).1, engine (cancel (PyStr id) w).2)
    = execution_cancel id (engine w).
Proof.
  repeat apply conj.
  - apply (forward_run (Call_execution_resume workflow_id)).
  - apply (forward_run (Call_execution_get_output workflow_id name)).
  - apply (forward_run (Call_execution_resume_all include_failed)).
  - apply (forward_run (Call_execution_get_metadata workflow_id name)).
  - apply (forward_run (Call_execution_get_status id)).
  - apply (forward_run (Call_execution_cancel id)).
Qed.

(** *** The forms of a status filter *)
Local Notation core w f :=
  (invoke (Call_execution_list_all f) (execution_list_all f) (ensure w).2).

Lemma list_all_set_strings sts w :
  list_all (PySet ((PyStr ∘ WorkflowStatus_value) <$> sts)) w = core w (list_to_set sts).
Proof.
  unfold api.list_all. rewrite bind_ensure_run, bind_run.
  change (isinstance_str (PySet _)) with false. cbn match.
  rewrite forallb_isinstance_str_strings.
  unfold lift. by rewrite statuses_of_strings_values.
Qed.

Lemma list_all_set_statuses sts w :
  list_all (PySet (PyStatus <$> sts)) w = core w (list_to_set sts).
Proof.
  unfold api.list_all. rewrite bind_ensure_run, bind_run.
  change (isinstance_str (PySet _)) with false. cbn match.
  rewrite forallb_isinstance_str_statuses.
  destruct sts as [|st sts]; [done|].
  destruct WorkflowStatus_is_str.
  - unfold lift. by rewrite statuses_of_strings_statuses.
  - rewrite forallb_isinstance_WorkflowStatus_statuses.
    cbn [negb]. unfold mret, M_ret.
    by rewrite (statuses_of_set_statuses (st :: sts)).
Qed.

Lemma list_all_string st w :
  list_all (PyStr (WorkflowStatus_value st)) w = core w {[st]}.
Proof.
  unfold api.list_all. rewrite bind_ensure_run, bind_run.
  cbn. rewrite bind_run. unfold lift. cbn. by rewrite WorkflowStatus_of_string_value.
Qed.

Lemma list_all_status st w : list_all (PyStatus st) w = core w {[st]}.
Proof.
  unfold api.list_all. rewrite bind_ensure_run, bind_run.
  unfold api.isinstance_str. cbn. destruct WorkflowStatus_is_str; [|done].
  rewrite bind_run. done.
Qed.

Lemma list_all_None w :
  list_all PyNone w = core w (list_to_set [RUNNING; SUCCESSFUL; FAILED; CANCELED; RESUMABLE]).
Proof.
  unfold api.list_all. rewrite bind_ensure_run, bind_run.
  change (isinstance_str PyNone) with false. cbn match.
  unfold mret, M_ret. by rewrite all_but_NONE.
Qed.

(** X8: the forms of a status filter are interchangeable.  Two sets with
    the same statuses, each given by the statuses or by their strings, in
    any order and with any repetition, make the same call; a single status
    or string is the set of that one status; [None] is the set of the five
    statuses other than [NONE]; and the empty set reaches the engine as the
    empty set, it is not taken for a missing filter. *)
Theorem list_all_equivalent_forms w :
  (∀ sts1 sts2, (∀ st, st ∈ sts1 ↔ st ∈ sts2) →
     list_all (PySet ((PyStr ∘ WorkflowStatus_value) <$> sts1)) w
       = list_all (PySet (PyStatus <$> sts2)) w
     ∧ list_all (PySet (PyStatus <$> sts1)) w = list_all (PySet (PyStatus <$> sts2)) w
     ∧ list_all (PySet ((PyStr ∘ WorkflowStatus_value) <$> sts1)) w
       = list_all (PySet ((PyStr ∘ WorkflowStatus_value) <$> sts2)) w)
  ∧ (∀ st, list_all (PyStr (WorkflowStatus_value st)) w = list_all (PySet [PyStatus st]) w
           ∧ list_all (PyStatus st) w = list_all (PySet [PyStatus st]) w)
  ∧ list_all PyNone w
    = list_all (PySet (PyStatus <$> [RUNNING; SUCCESSFUL; FAILED; CANCELED; RESUMABLE])) w
  ∧ list_all (PySet []) w = core w ∅.
Proof.
  repeat apply conj.
  - intros sts1 sts2 Heq.
    assert (Hset : (list_to_set sts1 : gset WorkflowStatus) = list_to_set sts2).
    { apply set_eq. intros st. rewrite !elem_of_list_to_set. apply Heq. }
    rewrite !list_all_set_strings, !list_all_set_statuses, Hset. done.
  - intros st. rewrite list_all_string, list_all_status.
    rewrite (list_all_set_statuses [st]). cbn. by rewrite (right_id_L ∅ (∪)).
  - by rewrite list_all_None, list_all_set_statuses.
  - apply (list_all_set_statuses []).
Qed.
End more_api_facts2.

(** * Further properties of [options] *)

Section more_options_facts.
Variable WORKFLOW_OPTIONS : string.
Variable validate_user_metadata : pyval → Result unit.

Local Notation options_init := (api.options_init WORKFLOW_OPTIONS validate_user_metadata).

(** What a successful construction leaves in [self.options]. *)
Lemma options_init_dict workflow_options self :
  options_init workflow_options = Return self →
  api.options_dict self
  = {[ "_metadata" := PyDict [(WORKFLOW_OPTIONS, PyDict workflow_options)] ]}.
Proof.
  unfold api.options_init. case_match; [done|].
  destruct (validate_user_metadata _); [|done]. by intros [= <-].
Qed.

(** X9: an [options] instance unpacks, by [keys] and [__getitem__], to the
    single entry ["_metadata"], which holds the keywords the instance was
    built with under the key [WORKFLOW_OPTIONS]; any other key is a
    [KeyError]. *)
Theorem options_unpack_metadata workflow_options self :
  options_init workflow_options = Return self →
  api.options_unpack self
    = Return [("_metadata", PyDict [(WORKFLOW_OPTIONS, PyDict workflow_options)])]
  ∧ (∀ key, key ∈ api.options_keys self → is_Some (api.options_dict self !! key))
  ∧ (∀ key, key ≠ "_metadata" →
       ∃ e, api.options_getitem self key = Raise e ∧ exn_class e = "KeyError").
Proof.
  intros Hinit. apply options_init_dict in Hinit.
  unfold api.options_unpack, api.options_keys, api.getitems, api.options_getitem.
  rewrite Hinit. repeat apply conj.
  - by rewrite lookup_singleton_eq.
  - intros key Hk. apply list_elem_of_singleton in Hk as ->.
    rewrite lookup_singleton_eq. by eexists.
  - intros key Hk. rewrite lookup_singleton_ne by done. by eexists.
Qed.

(** X10: decorating twice does not merge the options: the second
    application replaces the ["_metadata"] entry the first one wrote, so the
    function ends as if only the second had been applied; in particular
    applying the same options twice is the same as once. *)
Theorem options_call_last_wins kw1 kw2 self1 self2 addr _default_options
    (heap : gmap nat PyObject) :
  options_init kw1 = Return self1 →
  options_init kw2 = Return self2 →
  heap !! addr = Some (RemoteFunction _default_options) →
  api.options_call self2 (PyRef addr) (api.options_call self1 (PyRef addr) heap).2
    = api.options_call self2 (PyRef addr) heap
  ∧ (api.options_call self2 (PyRef addr) heap).2 !! addr
    = Some (RemoteFunction
              (<["_metadata" := PyDict [(WORKFLOW_OPTIONS, PyDict kw2)]]> _default_options)).
Proof.
  intros H1 H2 Hh. apply options_init_dict in H1, H2.
  unfold api.options_call. rewrite Hh. cbn [snd].
  rewrite lookup_insert_eq, insert_insert_eq, H1, H2.
  rewrite <- !insert_union_singleton_l, insert_insert_eq, lookup_insert_eq. done.
Qed.

(** X11: when no [metadata] keyword is given, what is validated is [None]:
    with valid keywords and no [metadata] among them, the construction
    succeeds exactly when [validate_user_metadata(None)] returns. *)
Theorem options_init_without_metadata (workflow_options : list (string * pyval)) :
  (∀ k, k ∈ workflow_options.*1 → k ∈ api.valid_options) →
  "metadata" ∉ workflow_options.*1 →
  options_init workflow_options
  = match validate_user_metadata PyNone with
    | Raise e => Raise e
    | Return _ =>
        Return (api.mk_options
          {[ "_metadata" := PyDict [(WORKFLOW_OPTIONS, PyDict workflow_options)] ]})
    end.
Proof.
  intros Hvalid Hno. unfold api.options_init.
  rewrite bool_decide_eq_true_2 by by apply invalid_keywords_nil.
  assert (Hget : dict_get workflow_options "metadata" = PyNone).
  { clear Hvalid. induction workflow_options as [|[k v] rest IH]; [done|].
    cbn in *. apply not_elem_of_cons in Hno as [Hk Hrest].
    rewrite bool_decide_eq_false_2 by done. by apply IH. }
  by rewrite Hget.
Qed.
End more_options_facts.

(** * Further properties of the graph builders *)

Section more_bridge_facts.
Context {S Src : Type}.
Variable poll_for_event :
  string → list pyval → list (string * pyval) → Src → Result pyval * Src.
Variable event_checkpointed : string → pyval → Src → Result unit * Src.
Variable time_plus : Src → pyval → pyval.

Local Notation exec_node := (bridge.exec_node poll_for_event event_checkpointed time_plus).

End more_bridge_facts.

Section create_facts.
Context {S : Type}.
Variable execution_run :
  DAGNode → DAGInputData → pyval → pyval → S → Result pyval * S.
Variable ray_get : pyval → S → Result pyval * S.
Variable dag_execute : DAGNode → S → Result pyval * S.
Variable in_workflow_execution : S → bool.
Implicit Types w : World S.
Implicit Types heap : gmap nat DAGObject.

Local Notation run_async := (api.run_async execution_run).
Local Notation run := (api.run execution_run ray_get).
Local Notation call_run_async := (api.call_run_async execution_run).
Local Notation call_run := (api.call_run execution_run ray_get).
Local Notation continuation :=
  (api.continuation ray_get dag_execute in_workflow_execution).
Local Notation ensure := api._ensure_workflow_initialized.

Lemma call_engine_run {A} (f : S → Result A * S) w :
  ((call_engine f w).1, engine (call_engine f w).2) = f (engine w)
  ∧ workflow_ready (call_engine f w).2 = workflow_ready w
  ∧ _is_workflow_initialized (call_engine f w).2 = _is_workflow_initialized w
  ∧ calls (call_engine f w).2 = calls w.
Proof. unfold call_engine. destruct (f (engine w)). by destruct w. Qed.

Lemma run_async_run closure workflow_id metadata w :
  ((run_async closure workflow_id metadata w).1,
   engine (run_async closure workflow_id metadata w).2)
  = execution_run (closure_dag_node closure) (closure_input_data closure)
                  workflow_id metadata (engine w)
  ∧ workflow_ready (run_async closure workflow_id metadata w).2 = true.
Proof.
  unfold api.run_async. rewrite bind_ensure_run.
  destruct (ensure_engine w) as (_ & He & Hr & _).
  destruct (call_engine_run
              (execution_run (closure_dag_node closure) (closure_input_data closure)
                 workflow_id metadata) (ensure w).2) as (H1 & H2 & _).
  rewrite He in H1. by rewrite H1, H2.
Qed.

Lemma run_run closure workflow_id metadata w :
  ((run closure workflow_id metadata w).1, engine (run closure workflow_id metadata w).2)
  = match execution_run (closure_dag_node closure) (closure_input_data closure)
                        workflow_id metadata (engine w) with
    | (Return ref, s1) => ray_get ref s1
    | (Raise e, s1) => (Raise e, s1)
    end
  ∧ workflow_ready (run closure workflow_id metadata w).2 = true.
Proof.
  destruct (run_async_run closure workflow_id metadata w) as (H1 & H2).
  unfold api.run. rewrite bind_run.
  destruct (run_async closure workflow_id metadata w) as [[ref|e] w1] eqn:Hrun;
    cbn [fst snd] in *.
  - rewrite <- H1.
    destruct (call_engine_run (ray_get ref) w1) as (H3 & H4 & _).
    by rewrite H3, H4.
  - by rewrite <- H1.
Qed.

(** X13: [create] on a graph node returns the node it was given and sets
    its attributes [run_async] and [run], both bound to the graph of the
    node and the input given to [create]; no other object changes, and the
    state of the process plays no part.  Calling [run_async] on the node
    afterwards initialises the process if needed and runs the engine on the
    graph of the node with the input given to [create] and the id and
    metadata given to [run_async]; its outcome is the engine's.  Calling
    [run] on the node does the same and then gets the result with
    [ray.get]: its outcome is that of [ray.get] on the reference the engine
    returned, or the error the engine raised.  On anything that is not a
    graph node, [create] raises [TypeError] and changes nothing. *)
Theorem create_then_run_async (dag_node : pyval) args kwargs heap :
  (∀ addr obj, dag_node = PyRef addr → heap !! addr = Some obj →
     let heap' := (api.create dag_node args kwargs heap).2 in
     let closure := mk_WorkflowClosure (object_node obj) (mk_DAGInputData args kwargs) in
     (api.create dag_node args kwargs heap).1 = Return dag_node
     ∧ (∀ other, other ≠ addr → heap' !! other = heap !! other)
     ∧ (object_node <$> heap' !! addr) = Some (object_node obj)
     ∧ (attr_run_async <$> heap' !! addr) = Some (Some closure)
     ∧ (attr_run <$> heap' !! addr) = Some (Some closure)
     ∧ ∀ workflow_id metadata w,
         ((call_run_async dag_node heap' workflow_id metadata w).1,
          engine (call_run_async dag_node heap' workflow_id metadata w).2)
         = execution_run (object_node obj) (mk_DAGInputData args kwargs)
                         workflow_id metadata (engine w)
         ∧ workflow_ready (call_run_async dag_node heap' workflow_id metadata w).2 = true
         ∧ ((call_run dag_node heap' workflow_id metadata w).1,
            engine (call_run dag_node heap' workflow_id metadata w).2)
           = match execution_run (object_node obj) (mk_DAGInputData args kwargs)
                                 workflow_id metadata (engine w) with
             | (Return ref, s1) => ray_get ref s1
             | (Raise e, s1) => (Raise e, s1)
             end
         ∧ workflow_ready (call_run dag_node heap' workflow_id metadata w).2 = true)
  ∧ (api.isinstance_DAGNode dag_node heap = None →
     api.create dag_node args kwargs heap
     = (Raise (TypeError "Input should be a DAG."), heap)).
Proof.
  split.
  - intros addr obj -> Hobj heap' closure. subst heap' closure.
    unfold api.create, api.isinstance_DAGNode. rewrite Hobj. cbn [fmap option_fmap option_map fst snd].
    repeat apply conj; [done| | | | |].
    + intros other Hne. by rewrite lookup_insert_ne.
    + by rewrite lookup_insert_eq.
    + by rewrite lookup_insert_eq.
    + by rewrite lookup_insert_eq.
    + intros workflow_id metadata w.
      unfold api.call_run_async, api.call_run, api.isinstance_DAGNode.
      rewrite lookup_insert_eq. cbn [fmap option_fmap option_map attr_run_async attr_run].
      destruct (run_async_run (mk_WorkflowClosure (object_node obj)
                                 (mk_DAGInputData args kwargs))
                  workflow_id metadata w) as (H1 & H2).
      destruct (run_run (mk_WorkflowClosure (object_node obj)
                           (mk_DAGInputData args kwargs))
                  workflow_id metadata w) as (H3 & H4).
      done.
  - intros Hn. unfold api.create. by rewrite Hn.
Qed.

(** X14: [create] rebinds: a second [create] on the same node, with other
    input, leaves the heap as if only the second had been made, so that
    [run_async] and [run], also through a reference obtained from the first
    [create], run with the input of the second. *)
Theorem create_rebinds addr obj args1 kwargs1 args2 kwargs2 heap :
  heap !! addr = Some obj →
  api.create (PyRef addr) args2 kwargs2 (api.create (PyRef addr) args1 kwargs1 heap).2
    = api.create (PyRef addr) args2 kwargs2 heap
  ∧ (api.create (PyRef addr) args2 kwargs2 heap).2 !! addr
    = Some (mk_DAGObject (object_node obj)
              (Some (mk_WorkflowClosure (object_node obj) (mk_DAGInputData args2 kwargs2)))
              (Some (mk_WorkflowClosure (object_node obj) (mk_DAGInputData args2 kwargs2)))).
Proof.
  intros Hobj. unfold api.create, api.isinstance_DAGNode. rewrite Hobj. cbn.
  rewrite !lookup_insert_eq. cbn. by rewrite insert_insert_eq.
Qed.

(** X15: [run] is [ray.get] of what [run_async] returns: when the engine
    returns a reference, [run] gives what [ray.get] gives for it, on the
    state the engine left; when the engine raises, [run] raises the same
    error and [ray.get] is not reached.  The process is initialised
    afterwards in both cases. *)
Theorem run_gets_run_async closure workflow_id metadata w :
  let started := execution_run (closure_dag_node closure) (closure_input_data closure)
                               workflow_id metadata (engine w) in
  ((run_async closure workflow_id metadata w).1,
   engine (run_async closure workflow_id metadata w).2) = started
  ∧ ((run closure workflow_id metadata w).1, engine (run closure workflow_id metadata w).2)
    = match started with
      | (Return ref, s1) => ray_get ref s1
      | (Raise e, s1) => (Raise e, s1)
      end
  ∧ workflow_ready (run closure workflow_id metadata w).2 = true.
Proof.
  cbn zeta. destruct (run_async_run closure workflow_id metadata w) as (H1 & H2).
  split; [done|]. unfold api.run. rewrite bind_run.
  destruct (run_async closure workflow_id metadata w) as [[ref|e] w1] eqn:Hrun;
    cbn [fst snd] in *.
  - rewrite <- H1.
    destruct (call_engine_run (ray_get ref) w1) as (H3 & H4 & _).
    by rewrite H3, H4.
  - by rewrite <- H1.
Qed.

(** X16: [continuation] raises [TypeError] on anything that is not a graph
    node, before it looks at the context.  Inside a workflow it is [create]
    without input and does not touch the process; outside it executes the
    graph and gets the result, sets no attribute on the node, and never
    initialises the workflow module: the module flag and the log of calls
    are as before. *)
Theorem continuation_cases (dag_node : pyval) heap w :
  (api.isinstance_DAGNode dag_node heap = None →
     continuation dag_node heap w = (Raise (TypeError "Input should be a DAG."), w, heap))
  ∧ (is_Some (api.isinstance_DAGNode dag_node heap) →
     in_workflow_execution (engine w) = true →
     continuation dag_node heap w
     = ((api.create dag_node [] [] heap).1, w, (api.create dag_node [] [] heap).2))
  ∧ (∀ addr obj, api.isinstance_DAGNode dag_node heap = Some (addr, obj) →
     in_workflow_execution (engine w) = false →
     let r := continuation dag_node heap w in
     r.2 = heap
     ∧ (r.1.1, engine r.1.2)
       = match dag_execute (object_node obj) (engine w) with
         | (Return ref, s1) => ray_get ref s1
         | (Raise e, s1) => (Raise e, s1)
         end
     ∧ _is_workflow_initialized r.1.2 = _is_workflow_initialized w
     ∧ calls r.1.2 = calls w).
Proof.
  repeat apply conj.
  - intros Hn. unfold api.continuation. by rewrite Hn.
  - intros [[addr obj] Hobj] Hin. unfold api.continuation. rewrite Hobj, Hin.
    by destruct (api.create dag_node [] [] heap).
  - intros addr obj Hobj Hin. cbn zeta. unfold api.continuation. rewrite Hobj, Hin.
    rewrite bind_run.
    destruct (call_engine_run (dag_execute (object_node obj)) w) as (H1 & _ & H2 & H3).
    destruct (call_engine (dag_execute (object_node obj)) w) as [[ref|e] w1] eqn:Hex;
      cbn [fst snd] in *.
    + destruct (call_engine_run (ray_get ref) w1) as (H4 & _ & H5 & H6).
      destruct (call_engine (ray_get ref) w1) as [r w2] eqn:Hget; cbn [fst snd] in *.
      rewrite <- H1, H4, H5, H6, H2, H3. done.
    + rewrite <- H1. done.
Qed.
End create_facts.

(** * The further statements at concrete inputs *)

Lemma delete_not_running_witness :
  (store.get_status "job" (engine (store.fresh {["job" := SUCCESSFUL]}))).1
    = Return SUCCESSFUL
  ∧ SUCCESSFUL ≠ RUNNING
  ∧ (api.delete store.get_status store.delete_workflow false (PyStr "job")
       (store.fresh {["job" := SUCCESSFUL]})).1 = Return ()
  ∧ engine (api.delete store.get_status store.delete_workflow false (PyStr "job")
              (store.fresh {["job" := SUCCESSFUL]})).2 = ∅.
Proof.
  assert (H0 : (store.get_status "job" (engine (store.fresh {["job" := SUCCESSFUL]}))).1
               = Return SUCCESSFUL) by reflexivity.
  assert (H1 : SUCCESSFUL ≠ RUNNING) by discriminate.
  split; [exact H0|]. split; [exact H1|].
  destruct (delete_not_running store.get_status store.delete_workflow false "job"
              (store.fresh {["job" := SUCCESSFUL]}) SUCCESSFUL H0 H1) as (H2 & H3 & _).
  split; [rewrite H2; reflexivity|rewrite H3; reflexivity].
Defined.

Lemma delete_non_string_witness :
  api.isinstance_str false (PyInt 5) = false
  ∧ (api.delete store.get_status store.delete_workflow false (PyInt 5)
       (store.fresh {["job" := SUCCESSFUL]})).1
    = Raise (TypeError "workflow_id has to be a string type.").
Proof.
  split; [reflexivity|].
  destruct (delete_non_string store.get_status store.delete_workflow false (PyInt 5)
              (store.fresh {["job" := SUCCESSFUL]}) eq_refl) as (H & _).
  by rewrite H.
Defined.

Lemma delete_lookup_error_witness :
  (unreachable_get_status "job" (engine (store.fresh {["job" := SUCCESSFUL]}))).1
    = Raise (RuntimeError "storage unreachable")
  ∧ isinstance_exn (RuntimeError "storage unreachable") "ValueError" = false
  ∧ (api.delete unreachable_get_status store.delete_workflow false (PyStr "job")
       (store.fresh {["job" := SUCCESSFUL]})).1
    = Raise (RuntimeError "storage unreachable").
Proof.
  assert (H0 : (unreachable_get_status "job"
                  (engine (store.fresh {["job" := SUCCESSFUL]}))).1
               = Raise (RuntimeError "storage unreachable")) by reflexivity.
  assert (H1 : isinstance_exn (RuntimeError "storage unreachable") "ValueError" = false)
    by reflexivity.
  split; [exact H0|]. split; [exact H1|].
  destruct (delete_lookup_error unreachable_get_status store.delete_workflow false "job"
              (store.fresh {["job" := SUCCESSFUL]}) _ H0 H1) as (H2 & _).
  exact H2.
Defined.

Lemma list_all_equivalent_forms_witness :
  api.list_all store.list_all false (PySet [PyStr "RUNNING"; PyStr "FAILED"])
    (store.fresh ∅)
  = api.list_all store.list_all false
      (PySet [PyStatus FAILED; PyStatus RUNNING; PyStatus FAILED]) (store.fresh ∅).
Proof.
  destruct (list_all_equivalent_forms store.list_all false (store.fresh ∅)) as (H & _).
  destruct (H [RUNNING; FAILED] [FAILED; RUNNING; FAILED]) as (H1 & _).
  - intros st. rewrite !elem_of_cons, !elem_of_nil. tauto.
  - exact H1.
Defined.

Lemma options_unpack_metadata_witness :
  api.options_unpack
    (api.mk_options
       {[ "_metadata" := PyDict [("workflow.io/options", PyDict [("name", PyStr "step")])] ]})
  = Return [("_metadata", PyDict [("workflow.io/options", PyDict [("name", PyStr "step")])])].
Proof.
  assert (H0 : api.options_init "workflow.io/options" (λ _, Return ())
                 [("name", PyStr "step")]
               = Return (api.mk_options
                   {[ "_metadata" :=
                        PyDict [("workflow.io/options", PyDict [("name", PyStr "step")])] ]}))
    by reflexivity.
  destruct (options_unpack_metadata "workflow.io/options" (λ _, Return ()) _ _ H0)
    as (H & _).
  exact H.
Defined.

Lemma options_call_last_wins_witness :
  let first := api.mk_options
    {[ "_metadata" := PyDict [("workflow.io/options", PyDict [("max_retries", PyInt 3)])] ]} in
  let second := api.mk_options
    {[ "_metadata" := PyDict [("workflow.io/options", PyDict [("name", PyStr "a")])] ]} in
  let heap : gmap nat PyObject := {[ 0 := RemoteFunction {[ "num_cpus" := PyInt 2 ]} ]} in
  (api.options_call second (PyRef 0) (api.options_call first (PyRef 0) heap).2).2 !! 0
  = Some (RemoteFunction
            (<["_metadata" := PyDict [("workflow.io/options", PyDict [("name", PyStr "a")])]]>
               {[ "num_cpus" := PyInt 2 ]})).
Proof.
  cbn zeta.
  assert (H1 : api.options_init "workflow.io/options" (λ _, Return ())
                 [("max_retries", PyInt 3)]
               = Return (api.mk_options
                   {[ "_metadata" :=
                        PyDict [("workflow.io/options", PyDict [("max_retries", PyInt 3)])] ]}))
    by reflexivity.
  assert (H2 : api.options_init "workflow.io/options" (λ _, Return ())
                 [("name", PyStr "a")]
               = Return (api.mk_options
                   {[ "_metadata" :=
                        PyDict [("workflow.io/options", PyDict [("name", PyStr "a")])] ]}))
    by reflexivity.
  assert (H3 : ({[ 0 := RemoteFunction {[ "num_cpus" := PyInt 2 ]} ]} : gmap nat PyObject) !! 0
               = Some (RemoteFunction {[ "num_cpus" := PyInt 2 ]})) by reflexivity.
  destruct (options_call_last_wins "workflow.io/options" (λ _, Return ()) _ _ _ _ 0 _ _
              H1 H2 H3) as (Ha & Hb).
  rewrite Ha. exact Hb.
Defined.

Lemma options_init_without_metadata_witness :
  api.options_init "workflow.io/options" (λ _, Return ()) []
  = Return (api.mk_options {[ "_metadata" := PyDict [("workflow.io/options", PyDict [])] ]}).
Proof.
  apply (options_init_without_metadata "workflow.io/options" (λ _, Return ()) []).
  - intros k Hk. by apply elem_of_nil in Hk.
  - apply not_elem_of_nil.
Defined.


Lemma create_then_run_async_witness :
  let heap : gmap nat DAGObject := {[ 0 := one_task ]} in
  let heap' := (api.create (PyRef 0) [PyInt 1] [] heap).2 in
  (api.create (PyRef 0) [PyInt 1] [] heap).1 = Return (PyRef 0)
  ∧ ((api.call_run_async echo_run (PyRef 0) heap' (PyStr "job") PyNone (store.fresh ∅)).1,
     engine (api.call_run_async echo_run (PyRef 0) heap' (PyStr "job") PyNone
               (store.fresh ∅)).2)
    = (Return (PyDict [("ref", PyStr "job")]), {["job" := RUNNING]})
  ∧ ((api.call_run echo_run echo_get (PyRef 0) heap' (PyStr "job") PyNone
        (store.fresh ∅)).1,
     engine (api.call_run echo_run echo_get (PyRef 0) heap' (PyStr "job") PyNone
               (store.fresh ∅)).2)
    = (Return (PyDict [("ref", PyStr "job")]), {["job" := RUNNING]}).
Proof.
  cbn zeta.
  destruct (create_then_run_async (S:=gmap string WorkflowStatus) echo_run echo_get
              (PyRef 0) [PyInt 1] [] {[ 0 := one_task ]}) as (H & _).
  destruct (H 0 one_task eq_refl) as (H1 & _ & _ & _ & _ & H4); [reflexivity|].
  split; [exact H1|].
  destruct (H4 (PyStr "job") PyNone (store.fresh ∅)) as (H5 & _ & H6 & _).
  rewrite H5, H6. split; reflexivity.
Defined.

Lemma create_rebinds_witness :
  let heap : gmap nat DAGObject := {[ 0 := one_task ]} in
  (attr_run_async <$>
     (api.create (PyRef 0) [PyInt 2] [] (api.create (PyRef 0) [PyInt 1] [] heap).2).2 !! 0)
  = Some (Some (mk_WorkflowClosure (object_node one_task) (mk_DAGInputData [PyInt 2] []))).
Proof.
  cbn zeta.
  assert (H0 : ({[ 0 := one_task ]} : gmap nat DAGObject) !! 0 = Some one_task)
    by reflexivity.
  destruct (create_rebinds 0 one_task [PyInt 1] [] [PyInt 2] [] _ H0) as (H1 & H2).
  rewrite H1, H2. reflexivity.
Defined.

Lemma continuation_cases_witness :
  let heap : gmap nat DAGObject := {[ 0 := one_task ]} in
  api.continuation echo_get echo_execute (λ _, false) (PyRef 0) heap (store.fresh ∅)
    = (Return (PyStr "executed"), store.fresh ∅, heap)
  ∧ api.continuation echo_get echo_execute (λ _, true) (PyRef 0) heap (store.fresh ∅)
    = (Return (PyRef 0), store.fresh ∅, (api.create (PyRef 0) [] [] heap).2)
  ∧ api.continuation echo_get echo_execute (λ _, true) (PyInt 3) heap (store.fresh ∅)
    = (Raise (TypeError "Input should be a DAG."), store.fresh ∅, heap).
Proof.
  cbn zeta. repeat apply conj.
  - destruct (continuation_cases echo_get echo_execute (λ _, false) (PyRef 0)
                {[ 0 := one_task ]} (store.fresh ∅)) as (_ & _ & H).
    destruct (H 0 one_task eq_refl eq_refl) as (H1 & H2 & H3 & H4).
    reflexivity.
  - destruct (continuation_cases echo_get echo_execute (λ _, true) (PyRef 0)
                {[ 0 := one_task ]} (store.fresh ∅)) as (_ & H & _).
    rewrite H; [reflexivity|by eexists|reflexivity].
  - destruct (continuation_cases echo_get echo_execute (λ _, true) (PyInt 3)
                {[ 0 := one_task ]} (store.fresh ∅)) as (H & _).
    apply H. reflexivity.
Defined.
